(** * STIMPL: the tree-walking evaluator of [src/stimpl/runtime.py]

    The development embeds the interpreter state ([State], [EmptyState]) and
    the recursive [evaluate] function, then proves the properties the
    specification states about them.

    Conventions of the embedding.
    - Host integers are unbounded, so they are [Z]; host floats are IEEE-754
      binary64, so they are the kernel's primitive [float]; host strings are
      [string] (a UTF-8 byte sequence, whose byte order is the code-point
      order the host uses).
    - A value and its semantic type travel as two separate components, exactly
      as the code returns them; nothing forces them to agree.  The predicate
      [tagged] states the agreement and [evaluate_tagged] shows that the
      evaluator maintains it.
    - An exception is an outcome [Raised]; only the error class is kept, the
      message text is not modelled.
    - [print] appends an event to an output log that is threaded through the
      evaluation, so that the effects of a sub-evaluation are observable.
    - The host's [while] may run forever, so [evaluate] takes a fuel that
      bounds the depth of the calls; [OutOfFuel] is not a behaviour of the
      program and [evaluate_fuel_mono] shows that more fuel never changes a
      result once there is one. *)

From Stdlib Require Import ZArith String List Bool Lia.
From Stdlib Require Import Floats.PrimFloat.
Import ListNotations.

#[local] Set Warnings "-register-all".
Local Open Scope string_scope.
Local Open Scope list_scope.
Local Open Scope Z_scope.

(** ** Semantic types, values and errors *)

(** Modelled from the spec: the classes of [stimpl.types], which is not part of
    the sources at hand.  "A closed, finite set: Unit, Integer, FloatingPoint,
    String, Boolean ... compared with structural equality". *)
Inductive Ty : Set :=
| Unit
| Integer
| FloatingPoint
| String
| Boolean.

Definition Ty_eqb (a b : Ty) : bool :=
  match a, b with
  | Unit, Unit
  | Integer, Integer
  | FloatingPoint, FloatingPoint
  | String, String
  | Boolean, Boolean => true
  | _, _ => false
  end.

(** The host values the evaluator handles: [None], [int], [float], [str] and
    [bool]. *)
Inductive Value : Set :=
| PyNone
| PyInt (z : Z)
| PyFloat (f : float)
| PyStr (s : string)
| PyBool (b : bool).

(** Modelled from the spec: the exception classes of [stimpl.errors], which is
    not part of the sources at hand.  "Three error kinds": syntax-class,
    type-class and arithmetic-class. *)
Inductive Error : Set :=
| InterpSyntaxError
| InterpTypeError
| InterpMathError.

(** ** Host operations

    The operators the evaluator applies to host values.  Each is defined on
    the representations the guarding type tag announces; on any other pair
    of representations the host would raise an exception of its own or
    coerce between numeric kinds, which the embedding does not follow: the
    operation is then [None]. *)

(** Truth value of a host object, as tested by [if] and [while]. *)
Definition truthy (v : Value) : bool :=
  match v with
  | PyNone => false
  | PyInt z => negb (z =? 0)
  | PyFloat f => negb (PrimFloat.eqb f 0%float)
  | PyStr s => negb (s =? "")%string
  | PyBool b => b
  end.

(** [v == 0].  [bool] is a subclass of [int] in the host, so [False == 0]
    holds; a float compares by IEEE equality, so [-0.0 == 0] holds. *)
Definition py_eq_zero (v : Value) : bool :=
  match v with
  | PyNone => false
  | PyInt z => z =? 0
  | PyFloat f => PrimFloat.eqb f 0%float
  | PyStr _ => false
  | PyBool b => negb b
  end.

(** [a and b], [a or b]: the host returns one of the operands. *)
Definition py_and (a b : Value) : Value := if truthy a then b else a.
Definition py_or (a b : Value) : Value := if truthy a then a else b.
Definition py_not (a : Value) : Value := PyBool (negb (truthy a)).

Definition py_add (a b : Value) : option Value :=
  match a, b with
  | PyInt x, PyInt y => Some (PyInt (x + y))
  | PyFloat x, PyFloat y => Some (PyFloat (x + y)%float)
  | PyStr x, PyStr y => Some (PyStr (x ++ y)%string)
  | _, _ => None
  end.

Definition py_sub (a b : Value) : option Value :=
  match a, b with
  | PyInt x, PyInt y => Some (PyInt (x - y))
  | PyFloat x, PyFloat y => Some (PyFloat (x - y)%float)
  | _, _ => None
  end.

Definition py_mul (a b : Value) : option Value :=
  match a, b with
  | PyInt x, PyInt y => Some (PyInt (x * y))
  | PyFloat x, PyFloat y => Some (PyFloat (x * y)%float)
  | _, _ => None
  end.

(** [a // b] on integers rounds towards minus infinity, as [Z.div] does. *)
Definition py_floordiv (a b : Value) : option Value :=
  match a, b with
  | PyInt x, PyInt y => Some (PyInt (x / y))
  | _, _ => None
  end.

(** [a / b] on floats. *)
Definition py_truediv (a b : Value) : option Value :=
  match a, b with
  | PyFloat x, PyFloat y => Some (PyFloat (x / y)%float)
  | _, _ => None
  end.

(** The six comparison operators share their shape: one test per
    representation.  Booleans compare as the integers 0 and 1. *)
Definition py_compare
    (on_int : Z -> Z -> bool) (on_float : float -> float -> bool)
    (on_str : string -> string -> bool) (a b : Value) : option Value :=
  match a, b with
  | PyInt x, PyInt y => Some (PyBool (on_int x y))
  | PyBool x, PyBool y => Some (PyBool (on_int (Z.b2z x) (Z.b2z y)))
  | PyStr x, PyStr y => Some (PyBool (on_str x y))
  | PyFloat x, PyFloat y => Some (PyBool (on_float x y))
  | _, _ => None
  end.

Definition py_lt : Value -> Value -> option Value :=
  py_compare Z.ltb PrimFloat.ltb String.ltb.
Definition py_le : Value -> Value -> option Value :=
  py_compare Z.leb PrimFloat.leb String.leb.
Definition py_gt : Value -> Value -> option Value :=
  py_compare Z.gtb (fun x y => PrimFloat.ltb y x) (fun x y => String.ltb y x).
Definition py_ge : Value -> Value -> option Value :=
  py_compare Z.geb (fun x y => PrimFloat.leb y x) (fun x y => String.leb y x).
Definition py_eq : Value -> Value -> option Value :=
  py_compare Z.eqb PrimFloat.eqb String.eqb.
Definition py_ne : Value -> Value -> option Value :=
  py_compare (fun x y => negb (x =? y))
             (fun x y => negb (PrimFloat.eqb x y))
             (fun x y => negb (x =? y)%string).

(** ** Interpreter state *)

(** The chain of [State] objects ending in an [EmptyState].  A [Frame] is an
    instance of class [State] proper; its fields are set by [__init__] and
    never assigned again. *)
Inductive State : Set :=
| EmptyState
| Frame (variable_name : string) (value : Value * Ty) (next_state : State).


(** [State.set_value], inherited by [EmptyState]. *)
Definition set_value (self : State) (variable_name : string)
    (variable_value : Value) (variable_type : Ty) : State :=
  Frame variable_name (variable_value, variable_type) self.

(** [State.get_value] and its override [EmptyState.get_value].  The test
    [if self.next_state] is on an object without [__bool__] or [__len__], so
    it always holds and the lookup moves on to the next object, whose own
    [get_value] answers. *)
Fixpoint get_value (self : State) (variable_name : string)
    : option (Value * Ty) :=
  match self with
  | EmptyState => None
  | Frame name value next_state =>
      if (name =? variable_name)%string then Some value
      else get_value next_state variable_name
  end.

(** ** The chain as objects of the host

    The host builds the chain out of objects that refer to one another, and
    [State(...)] allocates a new one.  The store below makes the references
    explicit, to state that an extension leaves every existing object as it
    was. *)

Definition ref : Set := nat.

Inductive Obj : Set :=
| EmptyStateObj
| StateObj (variable_name : string) (value : Value * Ty) (next_state : ref).

Definition Store : Set := list Obj.

(** The constructor call [State(name, value, type, self)] of [set_value]: a
    new object at a fresh reference. *)
Definition set_value_obj (h : Store) (self : ref) (variable_name : string)
    (variable_value : Value) (variable_type : Ty) : Store * ref :=
  (h ++ [StateObj variable_name (variable_value, variable_type) self],
   length h).

(** [get_value] through references; the outer [None] is an exhausted fuel or
    a dangling reference. *)
Fixpoint get_value_obj (fuel : nat) (h : Store) (self : ref)
    (variable_name : string) : option (option (Value * Ty)) :=
  match fuel with
  | O => None
  | S fuel' =>
      match nth_error h self with
      | None => None
      | Some EmptyStateObj => Some None
      | Some (StateObj name value next_state) =>
          if (name =? variable_name)%string then Some (Some value)
          else get_value_obj fuel' h next_state variable_name
      end
  end.

(** [represents h r s]: in the store [h], the reference [r] is the head of
    the chain [s]. *)
Inductive represents (h : Store) : ref -> State -> Prop :=
| represents_empty r :
    nth_error h r = Some EmptyStateObj -> represents h r EmptyState
| represents_frame r name value next s :
    nth_error h r = Some (StateObj name value next) ->
    represents h next s ->
    represents h r (Frame name value s).

(** ** Abstract syntax *)

(** Modelled from the spec: the node classes of [stimpl.expression], which is
    not part of the sources at hand, with the fields the evaluator reads.
    "Literal nodes hold a literal value; a unit/no-op node holds nothing;
    Variable holds a name; Assign holds a variable reference and a value
    expression; Print holds an expression; Sequence/Program hold an ordered
    list of expressions; the binary operators each hold a left and right
    expression; Not holds one expression; If holds a condition and two
    branches; While holds a condition and a body."  [Variable] is a reserved
    word, so the node is [Variable']; the [variable] field of
    [Assign] is a [Variable] node, of which only the name is read. *)
Inductive Expr : Set :=
| Ren
| IntLiteral (literal : Z)
| FloatingPointLiteral (literal : float)
| StringLiteral (literal : string)
| BooleanLiteral (literal : bool)
| Print (to_print : Expr)
| Sequence (exprs : list Expr)
| Program (exprs : list Expr)
| Variable' (variable_name : string)
| Assign (variable : string) (value : Expr)
| Add (left right : Expr)
| Subtract (left right : Expr)
| Multiply (left right : Expr)
| Divide (left right : Expr)
| And (left right : Expr)
| Or (left right : Expr)
| Not (expr : Expr)
| If (condition true' false' : Expr)
| Lt (left right : Expr)
| Lte (left right : Expr)
| Gt (left right : Expr)
| Gte (left right : Expr)
| Eq (left right : Expr)
| Ne (left right : Expr)
| While (condition body : Expr).

(** ** Outcomes and the evaluation monad *)

(** What one call of [evaluate] ends in: the returned triple, a raised
    interpreter error, a host operation outside the embedding (see the host
    operations above), or an exhausted fuel. *)
Inductive Outcome : Set :=
| Returned (value : Value) (type : Ty) (state : State)
| Raised (error : Error)
| Unmodelled
| OutOfFuel.

(** One line written by [print]: the token [Unit], or the text of a value
    (the value is recorded, its rendering is the host's). *)
Inductive Printed : Set :=
| PrintedUnit
| PrintedValue (v : Value).

Definition Stdout : Set := list Printed.

(** A computation reads the output written so far and yields an outcome with
    the output extended. *)
Definition Eval : Set := Stdout -> Outcome * Stdout.

Definition ret (v : Value) (t : Ty) (s : State) : Eval :=
  fun out => (Returned v t s, out).

Definition raise (e : Error) : Eval := fun out => (Raised e, out).

Definition out_of_fuel : Eval := fun out => (OutOfFuel, out).

Definition print (p : Printed) (k : Eval) : Eval :=
  fun out => k (out ++ [p]).

Definition bind (m : Eval) (k : Value -> Ty -> State -> Eval) : Eval :=
  fun out =>
    match m out with
    | (Returned v t s, out') => k v t s out'
    | (Raised e, out') => (Raised e, out')
    | (Unmodelled, out') => (Unmodelled, out')
    | (OutOfFuel, out') => (OutOfFuel, out')
    end.

(** The result of a host operation, or the end of the embedding. *)
Definition host (o : option Value) (k : Value -> Eval) : Eval :=
  match o with
  | Some v => k v
  | None => fun out => (Unmodelled, out)
  end.

Notation "'let*' '(' v ',' t ',' s ')' ':=' m 'in' k" :=
  (bind m (fun v t s => k))
  (at level 10, v name, t name, s name, m at level 100, k at level 200).

(** [value_type != variable_type] where [variable_type] is a type or [None]:
    a type never equals [None]. *)
Definition ty_ne (value_type : Ty) (variable_type : option Ty) : bool :=
  match variable_type with
  | Some t => negb (Ty_eqb value_type t)
  | None => true
  end.

(** [variable_type != None]. *)
Definition not_None (variable_type : option Ty) : bool :=
  match variable_type with
  | Some _ => true
  | None => false
  end.

(** ** The evaluator *)

(** The shape shared by the arithmetic operators and the comparisons: both
    operands are evaluated, left first, the types are compared, then [op]
    decides on the left type. *)
Definition binary (eval_left : Eval) (eval_right : State -> Eval)
    (op : Value -> Ty -> Value -> State -> Eval) : Eval :=
  let* (left_result, left_type, new_state) := eval_left in
  let* (right_result, right_type, new_state) := eval_right new_state in
  if negb (Ty_eqb left_type right_type) then raise InterpTypeError
  else op left_result left_type right_result new_state.

(** The body of a comparison after the types were found equal: the host
    operator on [Integer], [Boolean], [String] and [FloatingPoint], a constant
    on [Unit]; the result type is [Boolean]. *)
Definition comparison (host_op : Value -> Value -> option Value)
    (on_unit : bool) (left_value : Value) (left_type : Ty)
    (right_value : Value) (new_state : State) : Eval :=
  match left_type with
  | Integer | Boolean | String | FloatingPoint =>
      host (host_op left_value right_value)
           (fun result => ret result Boolean new_state)
  | Unit => ret (PyBool on_unit) Boolean new_state
  end.

Fixpoint evaluate (fuel : nat) (expression : Expr) (state : State)
    {struct fuel} : Eval :=
  match fuel with
  | O => out_of_fuel
  | S fuel' =>
    match expression with
    | Ren => ret PyNone Unit state
    | IntLiteral l => ret (PyInt l) Integer state
    | FloatingPointLiteral l => ret (PyFloat l) FloatingPoint state
    | StringLiteral l => ret (PyStr l) String state
    | BooleanLiteral l => ret (PyBool l) Boolean state
    | Print to_print =>
        let* (printable_value, printable_type, new_state) :=
          evaluate fuel' to_print state in
        print (match printable_type with
               | Unit => PrintedUnit
               | _ => PrintedValue printable_value
               end)
              (ret printable_value printable_type new_state)
    | Sequence exprs | Program exprs =>
        match exprs with
        | [] => evaluate fuel' Ren state
        | first :: rest =>
            let* (value_result, value_type, new_state) :=
              evaluate fuel' first state in
            match rest with
            | [] => ret value_result value_type new_state
            | _ :: _ => evaluate fuel' (Sequence rest) new_state
            end
        end
    | Variable' variable_name =>
        match get_value state variable_name with
        | None => raise InterpSyntaxError
        | Some (variable_value, variable_type) =>
            ret variable_value variable_type state
        end
    | Assign variable value =>
        let* (value_result, value_type, new_state) :=
          evaluate fuel' value state in
        let variable_from_state := get_value new_state variable in
        let variable_type :=
          match variable_from_state with
          | Some (_, variable_type) => Some variable_type
          | None => None
          end in
        if ty_ne value_type variable_type && not_None variable_type
        then raise InterpTypeError
        else ret value_result value_type
                 (set_value new_state variable value_result value_type)
    | Add left' right' =>
        binary (evaluate fuel' left' state) (evaluate fuel' right')
          (fun left_result left_type right_result new_state =>
             match left_type with
             | Integer | String | FloatingPoint =>
                 host (py_add left_result right_result)
                      (fun result => ret result left_type new_state)
             | _ => raise InterpTypeError
             end)
    | Subtract left' right' =>
        binary (evaluate fuel' left' state) (evaluate fuel' right')
          (fun left_result left_type right_result new_state =>
             match left_type with
             | Integer | FloatingPoint =>
                 host (py_sub left_result right_result)
                      (fun result => ret result left_type new_state)
             | _ => raise InterpTypeError
             end)
    | Multiply left' right' =>
        binary (evaluate fuel' left' state) (evaluate fuel' right')
          (fun left_result left_type right_result new_state =>
             match left_type with
             | Integer | FloatingPoint =>
                 host (py_mul left_result right_result)
                      (fun result => ret result left_type new_state)
             | _ => raise InterpTypeError
             end)
    | Divide left' right' =>
        binary (evaluate fuel' left' state) (evaluate fuel' right')
          (fun left_result left_type right_result new_state =>
             if py_eq_zero right_result then raise InterpMathError
             else
               match left_type with
               | Integer =>
                   host (py_floordiv left_result right_result)
                        (fun result => ret result left_type new_state)
               | FloatingPoint =>
                   host (py_truediv left_result right_result)
                        (fun result => ret result left_type new_state)
               | _ => raise InterpTypeError
               end)
    | And left' right' =>
        binary (evaluate fuel' left' state) (evaluate fuel' right')
          (fun left_value left_type right_value new_state =>
             match left_type with
             | Boolean =>
                 ret (py_and left_value right_value) left_type new_state
             | _ => raise InterpTypeError
             end)
    | Or left' right' =>
        binary (evaluate fuel' left' state) (evaluate fuel' right')
          (fun left_value left_type right_value new_state =>
             match left_type with
             | Boolean =>
                 ret (py_or left_value right_value) left_type new_state
             | _ => raise InterpTypeError
             end)
    | Not expr =>
        let* (expr_result, expr_type, new_state) :=
          evaluate fuel' expr state in
        match expr_type with
        | Boolean => ret (py_not expr_result) expr_type new_state
        | _ => raise InterpTypeError
        end
    | If condition true' false' =>
        let* (cond_result, cond_type, new_state) :=
          evaluate fuel' condition state in
        match cond_type with
        | Boolean =>
            if truthy cond_result then evaluate fuel' true' new_state
            else evaluate fuel' false' new_state
        | _ => raise InterpTypeError
        end
    | Lt left' right' =>
        binary (evaluate fuel' left' state) (evaluate fuel' right')
               (comparison py_lt false)
    | Lte left' right' =>
        binary (evaluate fuel' left' state) (evaluate fuel' right')
               (comparison py_le true)
    | Gt left' right' =>
        binary (evaluate fuel' left' state) (evaluate fuel' right')
               (comparison py_gt false)
    | Gte left' right' =>
        binary (evaluate fuel' left' state) (evaluate fuel' right')
               (comparison py_ge true)
    | Eq left' right' =>
        binary (evaluate fuel' left' state) (evaluate fuel' right')
               (comparison py_eq true)
    | Ne left' right' =>
        binary (evaluate fuel' left' state) (evaluate fuel' right')
               (comparison py_ne false)
    | While condition body =>
        let* (cond_result, cond_type, new_state) :=
          evaluate fuel' condition state in
        match cond_type with
        | Boolean =>
            while_loop fuel' condition body cond_result cond_type new_state
        | _ => raise InterpTypeError
        end
    end
  end

(** The [while result:] statement of the [While] case and the [return] after
    it, entered with the current [result], [cond_type] and [new_state]. *)
with while_loop (fuel : nat) (condition body : Expr) (result : Value)
    (cond_type : Ty) (new_state : State) {struct fuel} : Eval :=
  if truthy result then
    match fuel with
    | O => out_of_fuel
    | S fuel' =>
        let* (body_result, body_type, new_state) :=
          evaluate fuel' body new_state in
        let* (cond_result, cond_type, new_state) :=
          evaluate fuel' condition new_state in
        match cond_type with
        | Boolean =>
            while_loop fuel' condition body cond_result cond_type new_state
        | _ => raise InterpTypeError
        end
    end
  else ret result cond_type new_state.

(** [run_stimpl], without its debugging output. *)
Definition run_stimpl (fuel : nat) (program : Expr) : Outcome * Stdout :=
  evaluate fuel program EmptyState [].

(** ** Terminating evaluations *)

(** [evaluates e s out r out']: from state [s] and output [out], the call
    [evaluate(e, s)] ends in [r], a return or an exception, with the output
    [out']. *)
Definition evaluates (e : Expr) (s : State) (out : Stdout)
    (r : Outcome) (out' : Stdout) : Prop :=
  exists fuel, evaluate fuel e s out = (r, out') /\ r <> OutOfFuel.

(** The same for the loop statement of [While]. *)
Definition loops (condition body : Expr) (result : Value) (cond_type : Ty)
    (s : State) (out : Stdout) (r : Outcome) (out' : Stdout) : Prop :=
  exists fuel,
    while_loop fuel condition body result cond_type s out = (r, out')
    /\ r <> OutOfFuel.

(** [fuel_le m m']: whatever [m] ends in, short of running out of fuel, [m']
    ends in as well. *)
Definition fuel_le (m m' : Eval) : Prop :=
  forall out r out', m out = (r, out') -> r <> OutOfFuel -> m' out = (r, out').

(** ** Values that agree with their tags *)

Definition has_type (v : Value) (t : Ty) : bool :=
  match v, t with
  | PyNone, Unit
  | PyInt _, Integer
  | PyFloat _, FloatingPoint
  | PyStr _, String
  | PyBool _, Boolean => true
  | _, _ => false
  end.

(** Every binding of the chain holds a value of its type. *)
Fixpoint tagged (s : State) : bool :=
  match s with
  | EmptyState => true
  | Frame _ (v, t) next_state => has_type v t && tagged next_state
  end.

(** A computation is [sound] when it never leaves the embedding and returns
    only values that agree with their tags, in a [tagged] state. *)
Definition sound (m : Eval) : Prop :=
  forall out,
    match fst (m out) with
    | Returned v t s => has_type v t = true /\ tagged s = true
    | Unmodelled => False
    | Raised _ | OutOfFuel => True
    end.

(** ** Evaluating a list in sequence *)

(** [threaded exprs s out v t s' out']: the expressions of the non-empty list
    [exprs] return one after the other, each from the state and output its
    predecessor left, and the last one returns [(v, t, s')]. *)
Inductive threaded : list Expr -> State -> Stdout ->
                     Value -> Ty -> State -> Stdout -> Prop :=
| threaded_last e s out v t s' out' :
    evaluates e s out (Returned v t s') out' ->
    threaded [e] s out v t s' out'
| threaded_next e rest s out v1 t1 s1 out1 v t s' out' :
    evaluates e s out (Returned v1 t1 s1) out1 ->
    threaded rest s1 out1 v t s' out' ->
    threaded (e :: rest) s out v t s' out'.

(** What [Assign] does once its value expression has returned. *)
Definition assign_outcome (variable : string) (v : Value) (t : Ty)
    (env1 : State) : Outcome :=
  match get_value env1 variable with
  | Some (_, t0) =>
      if Ty_eqb t t0 then Returned v t (set_value env1 variable v t)
      else Raised InterpTypeError
  | None => Returned v t (set_value env1 variable v t)
  end.

(** ** Relations between the environment before and after *)

(** [extends s s']: the chain [s'] is [s] with frames added on top. *)
Inductive extends (s : State) : State -> Prop :=
| extends_same : extends s s
| extends_frame name value s' : extends s s' -> extends s (Frame name value s').

(** [keeps_types s s']: every name bound in [s] is bound in [s'], with the
    type it has in [s]. *)
Definition keeps_types (s s' : State) : Prop :=
  forall x v t, get_value s x = Some (v, t) ->
                exists v', get_value s' x = Some (v', t).

(** [returns_in P m]: whenever [m] returns, the returned state satisfies
    [P]. *)
Definition returns_in (P : State -> Prop) (m : Eval) : Prop :=
  forall out v t s o, m out = (Returned v t s, o) -> P s.

(** The test that lets [Assign] bind [x] with type [t] on top of [s]: no
    binding of [x] in [s], or one of type [t]. *)
Definition assignable (s : State) (x : string) (t : Ty) : bool :=
  match get_value s x with
  | Some (_, t0) => Ty_eqb t t0
  | None => true
  end.

(** ** The output log *)


(** ** Where an error can come from *)

(** [raises_at err e]: the node [e] itself has a [raise] of class [err]. *)
Definition raises_at (err : Error) (e : Expr) : bool :=
  match err, e with
  | InterpSyntaxError, Variable' _ => true
  | InterpMathError, Divide _ _ => true
  | InterpTypeError,
    (Assign _ _ | Add _ _ | Subtract _ _ | Multiply _ _ | Divide _ _
     | And _ _ | Or _ _ | Not _ | If _ _ _ | Lt _ _ | Lte _ _ | Gt _ _
     | Gte _ _ | Eq _ _ | Ne _ _ | While _ _) => true
  | _, _ => false
  end.

(** [can_raise err e]: some node of [e] has a [raise] of class [err]. *)
Fixpoint can_raise (err : Error) (e : Expr) {struct e} : bool :=
  raises_at err e ||
  match e with
  | Ren | IntLiteral _ | FloatingPointLiteral _ | StringLiteral _
  | BooleanLiteral _ | Variable' _ => false
  | Print a | Assign _ a | Not a => can_raise err a
  | Sequence exprs | Program exprs => existsb (can_raise err) exprs
  | Add a b | Subtract a b | Multiply a b | Divide a b | And a b | Or a b
  | Lt a b | Lte a b | Gt a b | Gte a b | Eq a b | Ne a b | While a b =>
      can_raise err a || can_raise err b
  | If a b c => can_raise err a || can_raise err b || can_raise err c
  end.

(** [raises_only P m]: whenever [m] raises, the class of the error satisfies
    [P]. *)
Definition raises_only (P : Error -> Prop) (m : Eval) : Prop :=
  forall out e o, m out = (Raised e, o) -> P e.

(** ** More of the object store *)


(** Every [next_state] reference points to an older object. *)
Definition backward (h : Store) : Prop :=
  forall r name value next,
    nth_error h r = Some (StateObj name value next) -> (next < r)%nat.

(** ** The binary nodes *)

(** The twelve node kinds whose case evaluates [left], then [right], then
    compares the two types. *)
Definition binary_nodes : list (Expr -> Expr -> Expr) :=
  [Add; Subtract; Multiply; Divide; And; Or; Lt; Lte; Gt; Gte; Eq; Ne].

(** The line [Print] writes for a value of a type. *)
Definition printed_line (v : Value) (t : Ty) : Printed :=
  match t with
  | Unit => PrintedUnit
  | _ => PrintedValue v
  end.

(** * Properties *)

(** ** Fuel *)

Lemma fuel_le_refl (m : Eval) : fuel_le m m.
Proof. intros out r out' H _. exact H. Qed.

Lemma fuel_le_trans (a b c : Eval) :
  fuel_le a b -> fuel_le b c -> fuel_le a c.
Proof. intros Hab Hbc out r out' H Hr. apply Hbc; auto. Qed.

Lemma fuel_le_out_of_fuel (m : Eval) : fuel_le out_of_fuel m.
Proof. intros out r out' H Hr. inversion H. congruence. Qed.

Lemma fuel_le_bind (m m' : Eval) (k k' : Value -> Ty -> State -> Eval) :
  fuel_le m m' ->
  (forall v t s, fuel_le (k v t s) (k' v t s)) ->
  fuel_le (bind m k) (bind m' k').
Proof.
  intros Hm Hk out r out'. unfold bind.
  destruct (m out) as [[v t s| e | | ] o] eqn:E; intros H Hr.
  - rewrite (Hm _ _ _ E) by discriminate. apply Hk; assumption.
  - rewrite (Hm _ _ _ E) by discriminate. exact H.
  - rewrite (Hm _ _ _ E) by discriminate. exact H.
  - inversion H. congruence.
Qed.

Lemma fuel_le_binary (l l' : Eval) (r r' : State -> Eval)
    (op : Value -> Ty -> Value -> State -> Eval) :
  fuel_le l l' -> (forall s, fuel_le (r s) (r' s)) ->
  fuel_le (binary l r op) (binary l' r' op).
Proof.
  intros Hl Hr. unfold binary.
  apply fuel_le_bind; [exact Hl | intros v t s].
  apply fuel_le_bind; [apply Hr | intros; apply fuel_le_refl].
Qed.

Lemma fuel_le_print (p : Printed) (k k' : Eval) :
  fuel_le k k' -> fuel_le (print p k) (print p k').
Proof. intros H out r out'. unfold print. apply H. Qed.

Ltac fuel_le_step IHe IHw :=
  first
    [ apply fuel_le_refl
    | apply fuel_le_out_of_fuel
    | apply IHe
    | apply IHw
    | apply fuel_le_binary; [ | intro ]
    | apply fuel_le_bind; [ | intros ? ? ? ]
    | apply fuel_le_print
    | match goal with
      | |- fuel_le (match ?x with _ => _ end) _ => destruct x
      | |- fuel_le (if ?x then _ else _) _ => destruct x
      end ].

Lemma evaluate_fuel_S (n : nat) :
  (forall e s, fuel_le (evaluate n e s) (evaluate (S n) e s)) /\
  (forall c b r t s,
      fuel_le (while_loop n c b r t s) (while_loop (S n) c b r t s)).
Proof.
  induction n as [|n [IHe IHw]].
  - split.
    + intros. apply fuel_le_out_of_fuel.
    + intros. simpl. destruct (truthy r).
      * apply fuel_le_out_of_fuel.
      * apply fuel_le_refl.
  - assert (He : forall e s,
               fuel_le (evaluate (S n) e s) (evaluate (S (S n)) e s)).
    { intros e s.
      destruct e; cbn [evaluate]; repeat fuel_le_step IHe IHw. }
    split; [exact He|].
    intros c b r t s. cbn [while_loop].
    repeat fuel_le_step IHe IHw.
Qed.

(** More fuel never changes the outcome of an evaluation that had enough. *)
Lemma evaluate_fuel_mono {n m : nat} {e : Expr} {s : State} :
  (n <= m)%nat -> fuel_le (evaluate n e s) (evaluate m e s).
Proof.
  induction 1 as [|m _ IH].
  - apply fuel_le_refl.
  - eapply fuel_le_trans; [exact IH | apply evaluate_fuel_S].
Qed.

Lemma while_loop_fuel_mono {n m : nat} {c b : Expr} {r : Value} {t : Ty}
    {s : State} :
  (n <= m)%nat -> fuel_le (while_loop n c b r t s) (while_loop m c b r t s).
Proof.
  induction 1 as [|m _ IH].
  - apply fuel_le_refl.
  - eapply fuel_le_trans; [exact IH | apply evaluate_fuel_S].
Qed.

(** A terminating evaluation gives its outcome at every fuel from some point
    on. *)
Lemma evaluates_from {e : Expr} {s : State} {out : Stdout} {r : Outcome}
    {out' : Stdout} :
  evaluates e s out r out' ->
  exists n, forall m, (n <= m)%nat -> evaluate m e s out = (r, out').
Proof.
  intros [n [E N]]. exists n. intros m Hm.
  exact (evaluate_fuel_mono Hm out r out' E N).
Qed.

Lemma loops_from {c b : Expr} {v : Value} {t : Ty} {s : State} {out : Stdout}
    {r : Outcome} {out' : Stdout} :
  loops c b v t s out r out' ->
  exists n, forall m, (n <= m)%nat -> while_loop m c b v t s out = (r, out').
Proof.
  intros [n [E N]]. exists n. intros m Hm.
  exact (while_loop_fuel_mono Hm out r out' E N).
Qed.

(** The outcome of a terminating evaluation is unique. *)
Lemma evaluates_det {e : Expr} {s : State} {out : Stdout}
    {r1 r2 : Outcome} {o1 o2 : Stdout} :
  evaluates e s out r1 o1 -> evaluates e s out r2 o2 -> r1 = r2 /\ o1 = o2.
Proof.
  intros H1 H2.
  destruct (evaluates_from H1) as [n1 F1].
  destruct (evaluates_from H2) as [n2 F2].
  specialize (F1 (Nat.max n1 n2) (Nat.le_max_l _ _)).
  specialize (F2 (Nat.max n1 n2) (Nat.le_max_r _ _)).
  rewrite F1 in F2. inversion F2. split; reflexivity.
Qed.

Lemma evaluates_intro {n : nat} {e : Expr} {s : State} {out : Stdout}
    {r : Outcome} {out' : Stdout} :
  evaluate n e s out = (r, out') -> r <> OutOfFuel ->
  evaluates e s out r out'.
Proof. intros E N. exists n. split; assumption. Qed.

(** ** The environment chain *)

Lemma get_value_set_value (s : State) (n : string) (v : Value) (t : Ty) :
  get_value (set_value s n v t) n = Some (v, t).
Proof. simpl. rewrite String.eqb_refl. reflexivity. Qed.

Lemma get_value_set_value_other (s : State) (n m : string) (v : Value)
    (t : Ty) :
  n <> m -> get_value (set_value s n v t) m = get_value s m.
Proof.
  intros H. simpl. destruct (String.eqb_spec n m); [contradiction|reflexivity].
Qed.

(** ** Agreement of values and tags *)

Lemma Ty_eqb_eq (a b : Ty) : Ty_eqb a b = true <-> a = b.
Proof. destruct a, b; simpl; split; congruence. Qed.

Lemma Ty_eqb_refl (a : Ty) : Ty_eqb a a = true.
Proof. destruct a; reflexivity. Qed.

Lemma Ty_eqb_neq (a b : Ty) : Ty_eqb a b = false <-> a <> b.
Proof. destruct a, b; simpl; split; congruence. Qed.

Lemma get_value_tagged {s : State} {x : string} {v : Value} {t : Ty} :
  tagged s = true -> get_value s x = Some (v, t) -> has_type v t = true.
Proof.
  induction s as [|name [v0 t0] next IH]; simpl; [discriminate|].
  intros Ht. apply andb_prop in Ht. destruct Ht as [H0 Hn].
  destruct (name =? x)%string.
  - intros E. inversion E. subst. exact H0.
  - apply IH. exact Hn.
Qed.

Lemma sound_ret (v : Value) (t : Ty) (s : State) :
  has_type v t = true -> tagged s = true -> sound (ret v t s).
Proof. intros Hv Hs out. simpl. split; assumption. Qed.

Lemma sound_raise (e : Error) : sound (raise e).
Proof. intros out. exact I. Qed.

Lemma sound_out_of_fuel : sound out_of_fuel.
Proof. intros out. exact I. Qed.

Lemma sound_print (p : Printed) (k : Eval) : sound k -> sound (print p k).
Proof. intros H out. apply H. Qed.

Lemma sound_bind (m : Eval) (k : Value -> Ty -> State -> Eval) :
  sound m ->
  (forall v t s, has_type v t = true -> tagged s = true -> sound (k v t s)) ->
  sound (bind m k).
Proof.
  intros Hm Hk out. unfold bind. specialize (Hm out).
  destruct (m out) as [[v t s| e | | ] o]; simpl in *; try exact I.
  - destruct Hm as [Hv Hs]. apply Hk; assumption.
  - exact Hm.
Qed.

Lemma sound_binary (l : Eval) (r : State -> Eval)
    (op : Value -> Ty -> Value -> State -> Eval) :
  sound l ->
  (forall s, tagged s = true -> sound (r s)) ->
  (forall lv t rv s, has_type lv t = true -> has_type rv t = true ->
                     tagged s = true -> sound (op lv t rv s)) ->
  sound (binary l r op).
Proof.
  intros Hl Hr Hop. unfold binary.
  apply sound_bind; [exact Hl | intros lv lt s1 Hlv Hs1].
  apply sound_bind; [apply Hr; exact Hs1 | intros rv rt s2 Hrv Hs2].
  destruct (Ty_eqb lt rt) eqn:E; simpl.
  - apply Ty_eqb_eq in E. subst rt. apply Hop; assumption.
  - apply sound_raise.
Qed.

Lemma sound_comparison (on_int : Z -> Z -> bool)
    (on_float : float -> float -> bool) (on_str : string -> string -> bool)
    (on_unit : bool) (lv : Value) (t : Ty) (rv : Value) (s : State) :
  has_type lv t = true -> has_type rv t = true -> tagged s = true ->
  sound (comparison (py_compare on_int on_float on_str) on_unit lv t rv s).
Proof.
  intros Hl Hr Hs.
  destruct t, lv; try discriminate Hl; destruct rv; try discriminate Hr;
    simpl; apply sound_ret; auto.
Qed.

Ltac sound_op :=
  let lv := fresh "lv" in
  let t := fresh "t" in
  let rv := fresh "rv" in
  let Hl := fresh "Hl" in
  let Hr := fresh "Hr" in
  intros lv t rv ? Hl Hr ?;
  destruct t, lv; try discriminate Hl; destruct rv; try discriminate Hr;
  simpl; try apply sound_raise;
  repeat match goal with
         | |- sound (if ?c then _ else _) => destruct c
         end;
  try apply sound_raise;
  try (apply sound_ret;
       [ unfold py_and, py_or; simpl;
         try match goal with
             | |- context [if ?c then _ else _] => destruct c
             end;
         reflexivity
       | assumption ]).

(** From a [tagged] state the evaluator stays inside the embedding, and what
    it returns is again tagged. *)
Lemma evaluate_sound (n : nat) :
  (forall e s, tagged s = true -> sound (evaluate n e s)) /\
  (forall c b r s, has_type r Boolean = true -> tagged s = true ->
                   sound (while_loop n c b r Boolean s)).
Proof.
  induction n as [|n [IHe IHw]].
  - split.
    + intros. apply sound_out_of_fuel.
    + intros c b r s Hr Hs. simpl. destruct (truthy r).
      * apply sound_out_of_fuel.
      * apply sound_ret; assumption.
  - split.
    + intros e s Hs.
      destruct e; cbn [evaluate];
        try (apply sound_ret; [reflexivity | exact Hs]);
        try (apply sound_binary;
             [ apply IHe; exact Hs
             | intros; apply IHe; assumption
             | first [ apply sound_comparison | sound_op ] ]).
      * (* Print *)
        apply sound_bind; [apply IHe; exact Hs | intros v t s1 Hv Hs1].
        apply sound_print. apply sound_ret; assumption.
      * (* Sequence *)
        destruct exprs as [|first rest]; [apply IHe; exact Hs|].
        apply sound_bind; [apply IHe; exact Hs | intros v t s1 Hv Hs1].
        destruct rest; [apply sound_ret; assumption | apply IHe; exact Hs1].
      * (* Program *)
        destruct exprs as [|first rest]; [apply IHe; exact Hs|].
        apply sound_bind; [apply IHe; exact Hs | intros v t s1 Hv Hs1].
        destruct rest; [apply sound_ret; assumption | apply IHe; exact Hs1].
      * (* Variable *)
        destruct (get_value s variable_name) as [[v t]|] eqn:E.
        -- apply sound_ret; [|exact Hs].
           exact (get_value_tagged Hs E).
        -- apply sound_raise.
      * (* Assign *)
        apply sound_bind; [apply IHe; exact Hs | intros v t s1 Hv Hs1].
        cbv zeta.
        match goal with
        | |- sound (if ?c then _ else _) => destruct c
        end; [apply sound_raise|].
        apply sound_ret; [exact Hv|]. simpl. rewrite Hv, Hs1. reflexivity.
      * (* Not *)
        apply sound_bind; [apply IHe; exact Hs | intros v t s1 Hv Hs1].
        destruct t; try apply sound_raise. apply sound_ret; auto.
      * (* If *)
        apply sound_bind; [apply IHe; exact Hs | intros v t s1 Hv Hs1].
        destruct t; try apply sound_raise.
        destruct (truthy v); apply IHe; exact Hs1.
      * (* While *)
        apply sound_bind; [apply IHe; exact Hs | intros v t s1 Hv Hs1].
        destruct t; try apply sound_raise. apply IHw; assumption.
    + intros c b r s Hr Hs. cbn [while_loop].
      destruct (truthy r); [|apply sound_ret; assumption].
      apply sound_bind; [apply IHe; exact Hs | intros v t s1 Hv Hs1].
      apply sound_bind; [apply IHe; exact Hs1 | intros v2 t2 s2 Hv2 Hs2].
      destruct t2; try apply sound_raise. apply IHw; assumption.
Qed.

Lemma evaluate_tagged {n : nat} {e : Expr} {s : State} {out : Stdout}
    {v : Value} {t : Ty} {s' : State} {out' : Stdout} :
  tagged s = true ->
  evaluate n e s out = (Returned v t s', out') ->
  has_type v t = true /\ tagged s' = true.
Proof.
  intros Hs E. pose proof (proj1 (evaluate_sound n) e s Hs out) as H.
  rewrite E in H. exact H.
Qed.

Lemma evaluate_modelled (n : nat) (e : Expr) (s : State) (out : Stdout) :
  tagged s = true -> fst (evaluate n e s out) <> Unmodelled.
Proof.
  intros Hs E. pose proof (proj1 (evaluate_sound n) e s Hs out) as H.
  rewrite E in H. exact H.
Qed.

Lemma has_type_Boolean {v : Value} :
  has_type v Boolean = true -> v = PyBool (truthy v).
Proof. destruct v; simpl; intros H; try discriminate H. reflexivity. Qed.

(** ** Evaluation of the composite nodes, one step at a time *)

Lemma bind_returned {m : Eval} {k : Value -> Ty -> State -> Eval}
    {out : Stdout} {v : Value} {t : Ty} {s : State} {o : Stdout} :
  m out = (Returned v t s, o) -> bind m k out = k v t s o.
Proof. intros E. unfold bind. rewrite E. reflexivity. Qed.

Lemma bind_raised {m : Eval} {k : Value -> Ty -> State -> Eval}
    {out : Stdout} {e : Error} {o : Stdout} :
  m out = (Raised e, o) -> bind m k out = (Raised e, o).
Proof. intros E. unfold bind. rewrite E. reflexivity. Qed.

(** A [bind] that ends has a first part that ends. *)
Lemma bind_ends {m : Eval} {k : Value -> Ty -> State -> Eval}
    {out : Stdout} {r : Outcome} {o : Stdout} :
  bind m k out = (r, o) -> r <> OutOfFuel ->
  exists r1 o1, m out = (r1, o1) /\ r1 <> OutOfFuel.
Proof.
  unfold bind. destruct (m out) as [[v t s| e | | ] o1]; intros E N.
  - exists (Returned v t s), o1. split; [reflexivity|discriminate].
  - exists (Raised e), o1. split; [reflexivity|discriminate].
  - exists Unmodelled, o1. split; [reflexivity|discriminate].
  - inversion E. congruence.
Qed.

Lemma binary_returned {l : Eval} {r : State -> Eval}
    {op : Value -> Ty -> Value -> State -> Eval} {out : Stdout}
    {lv : Value} {lt : Ty} {s1 : State} {o1 : Stdout}
    {rv : Value} {rt : Ty} {s2 : State} {o2 : Stdout} :
  l out = (Returned lv lt s1, o1) ->
  r s1 o1 = (Returned rv rt s2, o2) ->
  binary l r op out =
    if negb (Ty_eqb lt rt) then (Raised InterpTypeError, o2)
    else op lv lt rv s2 o2.
Proof.
  intros El Er. unfold binary.
  rewrite (bind_returned El).
  rewrite (bind_returned Er).
  destruct (Ty_eqb lt rt); reflexivity.
Qed.

Lemma binary_right_raised {l : Eval} {r : State -> Eval}
    {op : Value -> Ty -> Value -> State -> Eval} {out : Stdout}
    {lv : Value} {lt : Ty} {s1 : State} {o1 : Stdout}
    {e : Error} {o2 : Stdout} :
  l out = (Returned lv lt s1, o1) ->
  r s1 o1 = (Raised e, o2) ->
  binary l r op out = (Raised e, o2).
Proof.
  intros El Er. unfold binary.
  rewrite (bind_returned El).
  apply bind_raised. exact Er.
Qed.

(** Two evaluations that end have a fuel that serves both. *)
Lemma common_fuel {e1 e2 : Expr} {s1 s2 : State} {o1 o2 : Stdout}
    {r1 r2 : Outcome} {o1' o2' : Stdout} :
  evaluates e1 s1 o1 r1 o1' -> evaluates e2 s2 o2 r2 o2' ->
  exists n, evaluate n e1 s1 o1 = (r1, o1') /\ evaluate n e2 s2 o2 = (r2, o2').
Proof.
  intros H1 H2.
  destruct (evaluates_from H1) as [n1 F1].
  destruct (evaluates_from H2) as [n2 F2].
  exists (Nat.max n1 n2). split.
  - apply F1. apply Nat.le_max_l.
  - apply F2. apply Nat.le_max_r.
Qed.

Lemma evaluates_Assign {variable : string} {valueExpr : Expr} {env : State}
    {out : Stdout} {v : Value} {t : Ty} {env1 : State} {out1 : Stdout} :
  evaluates valueExpr env out (Returned v t env1) out1 ->
  evaluates (Assign variable valueExpr) env out
            (assign_outcome variable v t env1) out1.
Proof.
  intros [n [E _]]. exists (S n). cbn [evaluate].
  rewrite (bind_returned E). cbv zeta. unfold assign_outcome.
  destruct (get_value env1 variable) as [[v0 t0]|]; simpl.
  - rewrite andb_true_r. destruct (Ty_eqb t t0); simpl;
      (split; [reflexivity|discriminate]).
  - split; [reflexivity|discriminate].
Qed.

Lemma evaluate_Variable (name : string) (env : State) (out : Stdout)
    (n : nat) :
  evaluate (S n) (Variable' name) env out =
    match get_value env name with
    | None => (Raised InterpSyntaxError, out)
    | Some (v, t) => (Returned v t env, out)
    end.
Proof.
  cbn [evaluate]. destruct (get_value env name) as [[v t]|]; reflexivity.
Qed.

(** ** Operands of the binary nodes *)

(** Once the left operand has returned, a binary node that ends has run its
    right operand to an end. *)
Lemma binary_ends {l : Eval} {r : State -> Eval}
    {op : Value -> Ty -> Value -> State -> Eval} {out : Stdout}
    {res : Outcome} {o : Stdout} {lv : Value} {lt : Ty} {s1 : State}
    {o1 : Stdout} :
  binary l r op out = (res, o) -> res <> OutOfFuel ->
  l out = (Returned lv lt s1, o1) ->
  exists r2 o2, r s1 o1 = (r2, o2) /\ r2 <> OutOfFuel.
Proof.
  unfold binary. intros E N El.
  rewrite (bind_returned El) in E.
  exact (bind_ends E N).
Qed.

Lemma evaluate_0 (e : Expr) (s : State) (out : Stdout) :
  evaluate 0 e s out = (OutOfFuel, out).
Proof. reflexivity. Qed.

(** The fuel of an evaluation that ends, one call down. *)
Lemma evaluates_inv {e : Expr} {s : State} {out : Stdout} {r : Outcome}
    {out' : Stdout} :
  evaluates e s out r out' ->
  exists n, evaluate (S n) e s out = (r, out') /\ r <> OutOfFuel.
Proof.
  intros [[|n] [E N]].
  - rewrite evaluate_0 in E. inversion E. congruence.
  - exists n. split; assumption.
Qed.

(** At a fuel where a sub-evaluation does not run out, it gives the outcome
    it is known to end in. *)
Lemma evaluates_at {n : nat} {e : Expr} {s : State} {out : Stdout}
    {r r' : Outcome} {o o' : Stdout} :
  evaluates e s out r o ->
  evaluate n e s out = (r', o') -> r' <> OutOfFuel ->
  evaluate n e s out = (r, o).
Proof.
  intros H E N.
  destruct (evaluates_det H (evaluates_intro E N))
    as [-> ->].
  exact E.
Qed.

Lemma binary_right_ends {n : nat} {left right : Expr}
    {op : Value -> Ty -> Value -> State -> Eval} {env : State} {out : Stdout}
    {res : Outcome} {o : Stdout} {lv : Value} {lt : Ty} {env1 : State}
    {out1 : Stdout} :
  binary (evaluate n left env) (evaluate n right) op out = (res, o) ->
  res <> OutOfFuel ->
  evaluates left env out (Returned lv lt env1) out1 ->
  exists r2 o2, evaluates right env1 out1 r2 o2.
Proof.
  intros E N Hl.
  destruct (bind_ends E N) as [r1 [o1 [E1 N1]]].
  pose proof (evaluates_at Hl E1 N1) as El.
  destruct (binary_ends E N El) as [r2 [o2 [E2 N2]]].
  exists r2, o2. exact (evaluates_intro E2 N2).
Qed.

(** ** Sequences *)

(** [Program] is evaluated by the same case as [Sequence]. *)
Lemma Program_as_Sequence (n : nat) (exprs : list Expr) (s : State) :
  evaluate n (Program exprs) s = evaluate n (Sequence exprs) s.
Proof. destruct n; reflexivity. Qed.

Lemma bind_ret (m : Eval) (out : Stdout) :
  bind m (fun v t s => ret v t s) out = m out.
Proof. unfold bind. destruct (m out) as [[v t s| e | | ] o]; reflexivity. Qed.

Lemma threaded_nonempty {exprs : list Expr} {s : State} {out : Stdout}
    {v : Value} {t : Ty} {s' : State} {out' : Stdout} :
  threaded exprs s out v t s' out' -> exprs <> [].
Proof. intros H. inversion H; discriminate. Qed.

Lemma evaluates_Sequence_threaded {exprs : list Expr} {s : State}
    {out : Stdout} {v : Value} {t : Ty} {s' : State} {out' : Stdout} :
  threaded exprs s out v t s' out' ->
  evaluates (Sequence exprs) s out (Returned v t s') out'.
Proof.
  induction 1 as [e s out v t s' out' [n [E _]]
                 |e rest s out v1 t1 s1 out1 v t s' out' He Hrest IH].
  - exists (S n). split; [|discriminate]. cbn [evaluate].
    rewrite (bind_returned E). reflexivity.
  - destruct (common_fuel He IH) as [n [E1 E2]].
    exists (S n). split; [|discriminate]. cbn [evaluate].
    rewrite (bind_returned E1).
    destruct rest as [|e' rest']; [|exact E2].
    exfalso. exact (threaded_nonempty Hrest eq_refl).
Qed.

(** ** The loop *)

Lemma bind_returned_inv {m : Eval} {k : Value -> Ty -> State -> Eval}
    {out : Stdout} {v : Value} {t : Ty} {s : State} {o : Stdout} :
  bind m k out = (Returned v t s, o) ->
  exists v1 t1 s1 o1,
    m out = (Returned v1 t1 s1, o1) /\ k v1 t1 s1 o1 = (Returned v t s, o).
Proof.
  unfold bind. destruct (m out) as [[v1 t1 s1| e | | ] o1]; intros E;
    try discriminate E.
  exists v1, t1, s1, o1. split; [reflexivity|exact E].
Qed.

(** What the loop statement returns is falsy, and is either the result it was
    entered with or the result of a later check of the condition. *)
Lemma while_loop_returns (c b : Expr) (n : nat) :
  forall (r : Value) (ct : Ty) (s : State) (o : Stdout)
         (v : Value) (t : Ty) (s' : State) (o' : Stdout),
    while_loop n c b r ct s o = (Returned v t s', o') ->
    truthy v = false /\
    ((v = r /\ t = ct /\ s' = s /\ o' = o) \/
     (t = Boolean /\
      exists s0 o0, evaluates c s0 o0 (Returned v Boolean s') o')).
Proof.
  induction n as [|n IH]; intros r ct s o v t s' o' E.
  - simpl in E. destruct (truthy r) eqn:Hr; [discriminate E|].
    inversion E; subst. split; [exact Hr|]. left. repeat split.
  - cbn [while_loop] in E. destruct (truthy r) eqn:Hr.
    + apply bind_returned_inv in E.
      destruct E as [bv [bt [s1 [o1 [_ E]]]]].
      apply bind_returned_inv in E.
      destruct E as [cv [ct2 [s2 [o2 [Ec E]]]]].
      destruct ct2; try discriminate E.
      destruct (IH _ _ _ _ _ _ _ _ E) as [Hv [[-> [-> [-> ->]]]|Hlater]].
      * split; [exact Hv|]. right. split; [reflexivity|].
        exists s1, o1. exists n. split; [exact Ec|discriminate].
      * split; [exact Hv|]. right. exact Hlater.
    + inversion E; subst. split; [exact Hr|]. left. repeat split.
Qed.

Lemma loops_exit {c b : Expr} {r : Value} {ct : Ty} {s : State}
    {o : Stdout} :
  truthy r = false -> loops c b r ct s o (Returned r ct s) o.
Proof.
  intros Hr. exists 0%nat. simpl. rewrite Hr.
  split; [reflexivity|discriminate].
Qed.

Lemma loops_step {c b : Expr} {r : Value} {ct : Ty} {s : State} {o : Stdout}
    {bv : Value} {bt : Ty} {s2 : State} {o2 : Stdout}
    {cv : Value} {s3 : State} {o3 : Stdout} {R : Outcome} {o' : Stdout} :
  truthy r = true ->
  evaluates b s o (Returned bv bt s2) o2 ->
  evaluates c s2 o2 (Returned cv Boolean s3) o3 ->
  loops c b cv Boolean s3 o3 R o' ->
  loops c b r ct s o R o'.
Proof.
  intros Hr Hb Hc Hl.
  destruct (common_fuel Hb Hc) as [n1 [Eb Ec]].
  destruct (loops_from Hl) as [n2 F].
  destruct Hl as [_ [_ N]].
  exists (S (Nat.max n1 n2)). split; [|exact N].
  cbn [while_loop]. rewrite Hr.
  assert (n1 <= Nat.max n1 n2)%nat as L1 by apply Nat.le_max_l.
  rewrite (bind_returned
             (evaluate_fuel_mono L1 _ _ _ Eb ltac:(discriminate))).
  rewrite (bind_returned
             (evaluate_fuel_mono L1 _ _ _ Ec ltac:(discriminate))).
  apply F. apply Nat.le_max_r.
Qed.

Lemma loops_recheck_error {c b : Expr} {r : Value} {ct : Ty} {s : State}
    {o : Stdout} {bv : Value} {bt : Ty} {s2 : State} {o2 : Stdout}
    {cv : Value} {ct2 : Ty} {s3 : State} {o3 : Stdout} :
  truthy r = true ->
  evaluates b s o (Returned bv bt s2) o2 ->
  evaluates c s2 o2 (Returned cv ct2 s3) o3 ->
  ct2 <> Boolean ->
  loops c b r ct s o (Raised InterpTypeError) o3.
Proof.
  intros Hr Hb Hc Hne.
  destruct (common_fuel Hb Hc) as [n [Eb Ec]].
  exists (S n). split; [|discriminate].
  cbn [while_loop]. rewrite Hr.
  rewrite (bind_returned Eb).
  rewrite (bind_returned Ec).
  destruct ct2; try reflexivity. congruence.
Qed.

(** [While] is the first check of the condition followed by the loop
    statement. *)
Lemma evaluates_While {c b : Expr} {env : State} {out : Stdout}
    {cv : Value} {env1 : State} {out1 : Stdout} {R : Outcome} {o' : Stdout} :
  evaluates c env out (Returned cv Boolean env1) out1 ->
  (loops c b cv Boolean env1 out1 R o' <->
   evaluates (While c b) env out R o').
Proof.
  intros Hc. split.
  - intros Hl.
    destruct (evaluates_from Hc) as [n1 F1].
    destruct (loops_from Hl) as [n2 F2].
    destruct Hl as [_ [_ N]].
    exists (S (Nat.max n1 n2)). split; [|exact N]. cbn [evaluate].
    rewrite (bind_returned (F1 _ (Nat.le_max_l _ _))).
    apply F2. apply Nat.le_max_r.
  - intros H. apply evaluates_inv in H. destruct H as [n [E N]].
    cbn [evaluate] in E.
    destruct (bind_ends E N) as [r1 [o1 [E1 N1]]].
    pose proof (evaluates_at Hc E1 N1) as Ec.
    rewrite (bind_returned Ec) in E.
    exists n. split; assumption.
Qed.

(** ** References into the object store *)

Lemma nth_error_extend {h : Store} {o x : Obj} {r : ref} :
  nth_error h r = Some x -> nth_error (h ++ [o]) r = Some x.
Proof.
  intros E. rewrite nth_error_app1; [exact E|].
  apply nth_error_Some. congruence.
Qed.

Lemma represents_extend {h : Store} {o : Obj} {r : ref} {s : State} :
  represents h r s -> represents (h ++ [o]) r s.
Proof.
  induction 1 as [r E|r name value next s E _ IH].
  - apply represents_empty. apply nth_error_extend. exact E.
  - eapply represents_frame; [apply nth_error_extend; exact E|exact IH].
Qed.

Lemma get_value_obj_represents {h : Store} {r : ref} {s : State} :
  represents h r s ->
  forall name, exists k, forall k', (k <= k')%nat ->
    get_value_obj k' h r name = Some (get_value s name).
Proof.
  induction 1 as [r E|r name value next s E _ IH]; intros x.
  - exists 1%nat. intros [|k'] Hk; [lia|]. simpl. rewrite E. reflexivity.
  - destruct (IH x) as [k Hk]. exists (S k). intros [|k'] Hk'; [lia|].
    simpl. rewrite E. destruct (name =? x)%string; [reflexivity|].
    apply Hk. lia.
Qed.

(** * The specification's statements *)

(** C1 -- [Assign(variable, valueExpr)] evaluates [valueExpr] first, to
    [(v, t, env1)].  If [env1] binds the variable with a type other than [t],
    the assignment raises the type-class error; if [env1] does not bind it,
    the assignment succeeds whatever [t] is, and so it does when the bound
    type is [t].  Whenever the assignment returns, it returns
    [(v, t, env1 extended with (variable, v, t))], and reading the variable in
    that environment returns [(v, t)]. *)
Theorem assign_checks_prior_type (variable : string) (valueExpr : Expr)
    (env : State) (out : Stdout) (v : Value) (t : Ty) (env1 : State)
    (out1 : Stdout) :
  evaluates valueExpr env out (Returned v t env1) out1 ->
  (forall v0 t0, get_value env1 variable = Some (v0, t0) -> t0 <> t ->
     evaluates (Assign variable valueExpr) env out
               (Raised InterpTypeError) out1) /\
  (get_value env1 variable = None ->
     evaluates (Assign variable valueExpr) env out
               (Returned v t (set_value env1 variable v t)) out1) /\
  (forall v0, get_value env1 variable = Some (v0, t) ->
     evaluates (Assign variable valueExpr) env out
               (Returned v t (set_value env1 variable v t)) out1) /\
  (forall v' t' env' out',
     evaluates (Assign variable valueExpr) env out
               (Returned v' t' env') out' ->
     v' = v /\ t' = t /\ env' = set_value env1 variable v t /\ out' = out1 /\
     forall n, evaluate (S n) (Variable' variable) env' out'
               = (Returned v t env', out')).
Proof.
  intros H. pose proof (evaluates_Assign (variable:=variable) H) as HA.
  unfold assign_outcome in HA. split; [|split; [|split]].
  - intros v0 t0 E Hne. rewrite E in HA.
    assert (Ty_eqb t t0 = false) as Hf by (apply Ty_eqb_neq; congruence).
    rewrite Hf in HA. exact HA.
  - intros E. rewrite E in HA. exact HA.
  - intros v0 E. rewrite E, Ty_eqb_refl in HA. exact HA.
  - intros v' t' env' out' H'.
    assert (Returned v' t' env' = Returned v t (set_value env1 variable v t)
            /\ out' = out1) as [E ->].
    { destruct (get_value env1 variable) as [[v0 t0]|];
        [destruct (Ty_eqb t t0)|];
        destruct (evaluates_det HA H') as [E1 E2];
        split; congruence. }
    inversion E; subst. repeat split.
    intros n. rewrite evaluate_Variable, get_value_set_value. reflexivity.
Qed.

Lemma assign_checks_prior_type_witness :
  let env := Frame "x" (PyInt 1, Integer) EmptyState in
  evaluates (Assign "x" (FloatingPointLiteral 1.5%float)) env []
            (Raised InterpTypeError) [] /\
  evaluates (Assign "x" (IntLiteral 2)) env []
            (Returned (PyInt 2) Integer (Frame "x" (PyInt 2, Integer) env))
            [] /\
  evaluates (Assign "y" (StringLiteral "s")) env []
            (Returned (PyStr "s") String (Frame "y" (PyStr "s", String) env))
            [].
Proof.
  intros env. split; [|split].
  - refine (proj1 (assign_checks_prior_type "x"
                     (FloatingPointLiteral 1.5%float) env []
                     (PyFloat 1.5%float) FloatingPoint env [] _)
                  (PyInt 1) Integer eq_refl _).
    + exists 1%nat. split; [reflexivity|discriminate].
    + discriminate.
  - refine (proj1 (proj2 (proj2 (assign_checks_prior_type "x"
                     (IntLiteral 2) env [] (PyInt 2) Integer env [] _)))
                  (PyInt 1) eq_refl).
    exists 1%nat. split; [reflexivity|discriminate].
  - refine (proj1 (proj2 (assign_checks_prior_type "y"
                     (StringLiteral "s") env [] (PyStr "s") String env [] _))
                  eq_refl).
    exists 1%nat. split; [reflexivity|discriminate].
Defined.

(** C2 -- [Divide(left, right)] whose operands return the same type [t]:
    when the right value equals zero ([right_result == 0] in the host, which
    [False] and [-0.0] satisfy too) the arithmetic-class error is raised
    before the type is looked at, whatever [t] is.  Otherwise two [Integer]
    operands give the floor division, two [FloatingPoint] operands the true
    division, and any other type the type-class error. *)
Theorem divide_zero_then_type (left right : Expr) (env : State)
    (out : Stdout) (lv rv : Value) (t : Ty) (env1 env2 : State)
    (out1 out2 : Stdout) :
  evaluates left env out (Returned lv t env1) out1 ->
  evaluates right env1 out1 (Returned rv t env2) out2 ->
  (py_eq_zero rv = true ->
     evaluates (Divide left right) env out (Raised InterpMathError) out2) /\
  (py_eq_zero rv = false ->
     match t with
     | Integer =>
         forall a b, lv = PyInt a -> rv = PyInt b ->
           evaluates (Divide left right) env out
                     (Returned (PyInt (a / b)) Integer env2) out2
           /\ a = b * (a / b) + a mod b
           /\ (0 <= a mod b < b \/ b < a mod b <= 0)
     | FloatingPoint =>
         forall a b, lv = PyFloat a -> rv = PyFloat b ->
           evaluates (Divide left right) env out
                     (Returned (PyFloat (a / b)%float) FloatingPoint env2) out2
     | Unit | String | Boolean =>
         evaluates (Divide left right) env out (Raised InterpTypeError) out2
     end).
Proof.
  intros Hl Hr.
  destruct (common_fuel Hl Hr) as [n [El Er]].
  assert (evaluate (S n) (Divide left right) env out =
            if py_eq_zero rv then (Raised InterpMathError, out2)
            else match t with
                 | Integer =>
                     host (py_floordiv lv rv)
                          (fun result => ret result t env2) out2
                 | FloatingPoint =>
                     host (py_truediv lv rv)
                          (fun result => ret result t env2) out2
                 | _ => (Raised InterpTypeError, out2)
                 end) as E.
  { cbn [evaluate].
    rewrite (binary_returned El Er).
    rewrite Ty_eqb_refl. simpl.
    destruct (py_eq_zero rv); [reflexivity|]. destruct t; reflexivity. }
  split; intros Hz; rewrite Hz in E.
  - exists (S n). split; [exact E|discriminate].
  - destruct t; try (exists (S n); split; [exact E|discriminate]).
    + intros a b -> ->. simpl in Hz. apply Z.eqb_neq in Hz. split; [|split].
      * exists (S n). split; [exact E|discriminate].
      * apply Z.div_mod. exact Hz.
      * destruct (Z_lt_le_dec 0 b) as [Hb|Hb].
        -- left. apply Z.mod_pos_bound. exact Hb.
        -- right. apply Z.mod_neg_bound. lia.
    + intros a b -> ->. exists (S n). split; [exact E|discriminate].
Qed.

Lemma divide_zero_then_type_witness :
  evaluates (Divide (IntLiteral 7) (IntLiteral 2)) EmptyState []
            (Returned (PyInt 3) Integer EmptyState) [] /\
  evaluates (Divide (FloatingPointLiteral 7.0%float)
                    (FloatingPointLiteral 2.0%float)) EmptyState []
            (Returned (PyFloat 3.5%float) FloatingPoint EmptyState) [] /\
  evaluates (Divide (FloatingPointLiteral 7.0%float)
                    (FloatingPointLiteral 0.0%float)) EmptyState []
            (Raised InterpMathError) [] /\
  evaluates (Divide (BooleanLiteral true) (BooleanLiteral false)) EmptyState []
            (Raised InterpMathError) [] /\
  evaluates (Divide (StringLiteral "a") (StringLiteral "")) EmptyState []
            (Raised InterpTypeError) [].
Proof.
  assert (forall e v t,
             evaluate 1 e EmptyState [] = (Returned v t EmptyState, []) ->
             evaluates e EmptyState [] (Returned v t EmptyState) []) as lit.
  { intros e v t E. exists 1%nat. split; [exact E|discriminate]. }
  split; [|split; [|split; [|split]]].
  - refine (proj1 (proj2 (divide_zero_then_type
                    (IntLiteral 7) (IntLiteral 2) EmptyState []
                    (PyInt 7) (PyInt 2) Integer EmptyState EmptyState [] []
                    _ _) eq_refl
                  7 2 eq_refl eq_refl));
      apply lit; reflexivity.
  - refine (proj2 (divide_zero_then_type
                    (FloatingPointLiteral 7.0%float)
                    (FloatingPointLiteral 2.0%float) EmptyState []
                    (PyFloat 7.0%float) (PyFloat 2.0%float) FloatingPoint
                    EmptyState EmptyState [] []
                    _ _) eq_refl
                  7.0%float 2.0%float eq_refl eq_refl);
      apply lit; reflexivity.
  - refine (proj1 (divide_zero_then_type
                    (FloatingPointLiteral 7.0%float)
                    (FloatingPointLiteral 0.0%float) EmptyState []
                    (PyFloat 7.0%float) (PyFloat 0.0%float) FloatingPoint
                    EmptyState EmptyState [] []
                    _ _) eq_refl);
      apply lit; reflexivity.
  - refine (proj1 (divide_zero_then_type
                    (BooleanLiteral true) (BooleanLiteral false) EmptyState []
                    (PyBool true) (PyBool false) Boolean
                    EmptyState EmptyState [] []
                    _ _) eq_refl);
      apply lit; reflexivity.
  - refine (proj2 (divide_zero_then_type
                    (StringLiteral "a") (StringLiteral "") EmptyState []
                    (PyStr "a") (PyStr "") String
                    EmptyState EmptyState [] []
                    _ _) eq_refl);
      apply lit; reflexivity.
Defined.

(** C3 -- [And(left, right)] and [Or(left, right)] evaluate both operands,
    the right one from the environment and output the left one produced.
    When both return [Boolean], the node returns the host's [and] / [or] of
    the two values with the environment of the right operand, whatever the
    left value is; an exception of the right operand is the node's, and the
    node ends only if the right operand does.  Operand types that differ, or
    that are not [Boolean], raise the type-class error. *)
Theorem and_or_evaluate_both (left right : Expr) (env : State) (out : Stdout)
    (lv : Value) (lt : Ty) (env1 : State) (out1 : Stdout) :
  evaluates left env out (Returned lv lt env1) out1 ->
  (forall rv rt env2 out2,
     evaluates right env1 out1 (Returned rv rt env2) out2 ->
     (lt = Boolean -> rt = Boolean ->
        evaluates (And left right) env out
                  (Returned (py_and lv rv) Boolean env2) out2 /\
        evaluates (Or left right) env out
                  (Returned (py_or lv rv) Boolean env2) out2) /\
     (lt <> Boolean \/ rt <> Boolean ->
        evaluates (And left right) env out (Raised InterpTypeError) out2 /\
        evaluates (Or left right) env out (Raised InterpTypeError) out2)) /\
  (forall e out2,
     evaluates right env1 out1 (Raised e) out2 ->
     evaluates (And left right) env out (Raised e) out2 /\
     evaluates (Or left right) env out (Raised e) out2) /\
  (forall res out',
     evaluates (And left right) env out res out' \/
     evaluates (Or left right) env out res out' ->
     exists r2 o2, evaluates right env1 out1 r2 o2) /\
  (forall a b, py_and (PyBool a) (PyBool b) = PyBool (a && b) /\
               py_or (PyBool a) (PyBool b) = PyBool (a || b)).
Proof.
  intros Hl. split; [|split; [|split]].
  - intros rv rt env2 out2 Hr.
    destruct (common_fuel Hl Hr) as [n [El Er]].
    pose proof (fun op => binary_returned (op:=op) El Er) as B.
    split.
    + intros -> ->.
      split; exists (S n); cbn [evaluate]; rewrite B;
        (split; [reflexivity|discriminate]).
    + intros Hne.
      split; exists (S n); cbn [evaluate]; rewrite B;
        (split; [|discriminate]);
        destruct lt, rt; simpl; try reflexivity; destruct Hne; congruence.
  - intros e out2 Hr.
    destruct (common_fuel Hl Hr) as [n [El Er]].
    split; exists (S n); cbn [evaluate];
      rewrite (binary_right_raised El Er);
      (split; [reflexivity|discriminate]).
  - intros res out' [H|H]; apply evaluates_inv in H;
      destruct H as [n [E N]]; cbn [evaluate] in E;
      exact (binary_right_ends E N Hl).
  - intros a b. destruct a, b; split; reflexivity.
Qed.

Lemma and_or_evaluate_both_witness :
  let bound := Frame "x" (PyBool true, Boolean) EmptyState in
  evaluates (And (BooleanLiteral false) (Assign "x" (BooleanLiteral true)))
            EmptyState [] (Returned (PyBool false) Boolean bound) [] /\
  evaluates (Or (BooleanLiteral true) (Assign "x" (BooleanLiteral true)))
            EmptyState [] (Returned (PyBool true) Boolean bound) [] /\
  evaluates (And (BooleanLiteral false) (Variable' "y"))
            EmptyState [] (Raised InterpSyntaxError) [] /\
  evaluates (Or (BooleanLiteral true) (IntLiteral 1))
            EmptyState [] (Raised InterpTypeError) [].
Proof.
  intros bound.
  assert (forall e r, evaluate 2 e EmptyState [] = (r, []) ->
                      r <> OutOfFuel -> evaluates e EmptyState [] r [])
    as run by (intros e r E N; exists 2%nat; split; assumption).
  split; [|split; [|split]].
  - refine (proj1 (proj1 (proj1 (and_or_evaluate_both
              (BooleanLiteral false) (Assign "x" (BooleanLiteral true))
              EmptyState [] (PyBool false) Boolean EmptyState [] _)
              (PyBool true) Boolean bound [] _) eq_refl eq_refl));
      (apply run; [reflexivity|discriminate]).
  - refine (proj2 (proj1 (proj1 (and_or_evaluate_both
              (BooleanLiteral true) (Assign "x" (BooleanLiteral true))
              EmptyState [] (PyBool true) Boolean EmptyState [] _)
              (PyBool true) Boolean bound [] _) eq_refl eq_refl));
      (apply run; [reflexivity|discriminate]).
  - refine (proj1 (proj1 (proj2 (and_or_evaluate_both
              (BooleanLiteral false) (Variable' "y")
              EmptyState [] (PyBool false) Boolean EmptyState [] _))
              InterpSyntaxError [] _));
      (apply run; [reflexivity|discriminate]).
  - refine (proj2 (proj2 (proj1 (and_or_evaluate_both
              (BooleanLiteral true) (IntLiteral 1)
              EmptyState [] (PyBool true) Boolean EmptyState [] _)
              (PyInt 1) Integer EmptyState [] _) (or_intror _)));
      first [apply run; [reflexivity|discriminate] | discriminate].
Defined.

(** C4 -- [While(cond, body)].  Whatever a terminating evaluation returns is
    the result of the check of the condition that ended the loop: a falsy
    value of type [Boolean] with the environment of that check -- [False]
    itself from an environment whose values agree with their tags.  When the
    first check is false the body takes no part and the result is that of
    the check.  A check that returns another type than [Boolean] raises the
    type-class error, at the first check and at every check after an
    iteration. *)
Theorem while_returns_false_condition (cond body : Expr) (env : State)
    (out : Stdout) :
  (forall v t env' out',
     evaluates (While cond body) env out (Returned v t env') out' ->
     truthy v = false /\ t = Boolean /\
     (exists s0 o0, evaluates cond s0 o0 (Returned v Boolean env') out') /\
     (tagged env = true -> v = PyBool false)) /\
  (forall cv ct env1 out1,
     evaluates cond env out (Returned cv ct env1) out1 ->
     (ct <> Boolean ->
        evaluates (While cond body) env out (Raised InterpTypeError) out1) /\
     (ct = Boolean -> truthy cv = false ->
        forall any_body,
          evaluates (While cond any_body) env out
                    (Returned cv Boolean env1) out1) /\
     (ct = Boolean ->
        forall R o',
          loops cond body cv Boolean env1 out1 R o' <->
          evaluates (While cond body) env out R o')) /\
  (forall r s o bv bt s2 o2 cv ct s3 o3,
     truthy r = true ->
     evaluates body s o (Returned bv bt s2) o2 ->
     evaluates cond s2 o2 (Returned cv ct s3) o3 ->
     (ct <> Boolean ->
        loops cond body r Boolean s o (Raised InterpTypeError) o3) /\
     (ct = Boolean ->
        forall R o',
          loops cond body cv Boolean s3 o3 R o' ->
          loops cond body r Boolean s o R o')).
Proof.
  split; [|split].
  - intros v t env' out' H.
    assert (tagged env = true -> has_type v t = true) as Htag.
    { intros Hs. destruct H as [n [E _]].
      exact (proj1 (evaluate_tagged Hs E)). }
    apply evaluates_inv in H. destruct H as [n [E N]].
    cbn [evaluate] in E. apply bind_returned_inv in E.
    destruct E as [cv [ct [s1 [o1 [Ec E]]]]].
    destruct ct; try discriminate E.
    destruct (while_loop_returns _ _ _ _ _ _ _ _ _ _ _ E)
      as [Hv [[-> [-> [-> ->]]]|[-> Hlater]]].
    + split; [exact Hv|]. split; [reflexivity|]. split.
      * exists env, out. exists n. split; [exact Ec|discriminate].
      * intros Hs. rewrite (has_type_Boolean (Htag Hs)), Hv. reflexivity.
    + split; [exact Hv|]. split; [reflexivity|]. split; [exact Hlater|].
      intros Hs. rewrite (has_type_Boolean (Htag Hs)), Hv. reflexivity.
  - intros cv ct env1 out1 Hc. split; [|split].
    + intros Hne. destruct Hc as [n [Ec _]]. exists (S n).
      split; [|discriminate]. cbn [evaluate].
      rewrite (bind_returned Ec).
      destruct ct; try reflexivity. congruence.
    + intros -> Hv any_body.
      apply (evaluates_While Hc).
      apply loops_exit. exact Hv.
    + intros -> R o'. apply evaluates_While. exact Hc.
  - intros r s o bv bt s2 o2 cv ct s3 o3 Hr Hb Hc. split.
    + intros Hne.
      exact (loops_recheck_error Hr Hb Hc Hne).
    + intros -> R o' Hl.
      exact (loops_step Hr Hb Hc Hl).
Qed.

Lemma while_returns_false_condition_witness :
  let count :=
    While (Lt (Variable' "i") (IntLiteral 2))
          (Assign "i" (Add (Variable' "i") (IntLiteral 1))) in
  let i0 := Frame "i" (PyInt 0, Integer) EmptyState in
  let i2 := Frame "i" (PyInt 2, Integer) (Frame "i" (PyInt 1, Integer) i0) in
  evaluate 6 count i0 [] = (Returned (PyBool false) Boolean i2, []) /\
  (exists s0 o0,
     evaluates (Lt (Variable' "i") (IntLiteral 2)) s0 o0
               (Returned (PyBool false) Boolean i2) []) /\
  evaluates (While (BooleanLiteral false) (Print (Variable' "unbound")))
            EmptyState [] (Returned (PyBool false) Boolean EmptyState) [] /\
  evaluates (While (IntLiteral 1) Ren) EmptyState []
            (Raised InterpTypeError) [] /\
  evaluates (While (If (Lt (Variable' "i") (IntLiteral 1))
                       (BooleanLiteral true) (IntLiteral 0))
                   (Assign "i" (IntLiteral 1)))
            i0 [] (Raised InterpTypeError) [].
Proof.
  intros count i0 i2.
  assert (evaluate 6 count i0 [] = (Returned (PyBool false) Boolean i2, []))
    as E by reflexivity.
  split; [exact E|]. split; [|split; [|split]].
  - pose proof (proj1 (while_returns_false_condition
                  (Lt (Variable' "i") (IntLiteral 2))
                  (Assign "i" (Add (Variable' "i") (IntLiteral 1))) i0 [])
                (PyBool false) Boolean i2 []
                (evaluates_intro E ltac:(discriminate))) as H.
    exact (proj1 (proj2 (proj2 H))).
  - refine (proj1 (proj2 (proj1 (proj2 (while_returns_false_condition
              (BooleanLiteral false) Ren EmptyState []))
              (PyBool false) Boolean EmptyState [] _))
              eq_refl eq_refl (Print (Variable' "unbound"))).
    exists 1%nat. split; [reflexivity|discriminate].
  - refine (proj1 (proj1 (proj2 (while_returns_false_condition
              (IntLiteral 1) Ren EmptyState []))
              (PyInt 1) Integer EmptyState [] _) _);
      [exists 1%nat; split; [reflexivity|discriminate] | discriminate].
  - set (c := If (Lt (Variable' "i") (IntLiteral 1))
                 (BooleanLiteral true) (IntLiteral 0)).
    set (b := Assign "i" (IntLiteral 1)).
    set (i1 := Frame "i" (PyInt 1, Integer) i0).
    pose proof (while_returns_false_condition c b i0 []) as H.
    assert (evaluates c i0 [] (Returned (PyBool true) Boolean i0) []) as Hc0
      by (exists 3%nat; split; [reflexivity|discriminate]).
    assert (evaluates b i0 [] (Returned (PyInt 1) Integer i1) []) as Hb
      by (exists 2%nat; split; [reflexivity|discriminate]).
    assert (evaluates c i1 [] (Returned (PyInt 0) Integer i1) []) as Hc1
      by (exists 3%nat; split; [reflexivity|discriminate]).
    apply (proj2 (proj2 (proj1 (proj2 H) _ _ _ _ Hc0)) eq_refl).
    refine (proj1 (proj2 (proj2 H) (PyBool true) i0 [] _ _ _ _ _ _ _ _
                     eq_refl Hb Hc1) _).
    discriminate.
Defined.

(** C5 -- [If(cond, true, false)]: a condition that returns a type other than
    [Boolean] raises the type-class error.  Otherwise the node is exactly the
    evaluation of one branch from the environment and output the condition
    produced: the [true] branch when the condition value is true, the [false]
    branch when it is not.  The other branch takes no part: replacing it by
    any expression, even one that raises, prints or loops forever, changes
    nothing. *)
Theorem if_takes_one_branch (cond true' false' : Expr) (env : State)
    (out : Stdout) (cv : Value) (ct : Ty) (env1 : State) (out1 : Stdout) :
  evaluates cond env out (Returned cv ct env1) out1 ->
  (ct <> Boolean ->
     evaluates (If cond true' false') env out (Raised InterpTypeError) out1) /\
  (ct = Boolean -> truthy cv = true ->
     forall r out',
       (evaluates (If cond true' false') env out r out' <->
        evaluates true' env1 out1 r out') /\
       forall other,
         evaluates (If cond true' false') env out r out' ->
         evaluates (If cond true' other) env out r out') /\
  (ct = Boolean -> truthy cv = false ->
     forall r out',
       (evaluates (If cond true' false') env out r out' <->
        evaluates false' env1 out1 r out') /\
       forall other,
         evaluates (If cond true' false') env out r out' ->
         evaluates (If cond other false') env out r out').
Proof.
  intros Hc.
  assert (forall a b r out',
             evaluates (If cond a b) env out r out' ->
             ct = Boolean ->
             evaluates (if truthy cv then a else b) env1 out1 r out') as Inv.
  { intros a b r out' H ->. apply evaluates_inv in H.
    destruct H as [n [E N]]. cbn [evaluate] in E.
    destruct (bind_ends E N) as [r1 [o1 [E1 N1]]].
    pose proof (evaluates_at Hc E1 N1) as Ec.
    rewrite (bind_returned Ec) in E.
    exists n. split; [|exact N]. destruct (truthy cv); exact E. }
  assert (forall a b r out',
             ct = Boolean ->
             evaluates (if truthy cv then a else b) env1 out1 r out' ->
             evaluates (If cond a b) env out r out') as Run.
  { intros a b r out' -> H.
    destruct (common_fuel Hc H) as [n [Ec Eb]].
    destruct H as [_ [_ N]].
    exists (S n). split; [|exact N]. cbn [evaluate].
    rewrite (bind_returned Ec).
    destruct (truthy cv); exact Eb. }
  split; [|split].
  - intros Hne. destruct Hc as [n [Ec _]]. exists (S n).
    split; [|discriminate]. cbn [evaluate].
    rewrite (bind_returned Ec).
    destruct ct; try reflexivity. congruence.
  - intros Hb Ht r out'. split; [split|].
    + intros H. apply (Inv _ _ _ _ H) in Hb. rewrite Ht in Hb. exact Hb.
    + intros H. apply Run; [exact Hb|]. rewrite Ht. exact H.
    + intros other H. apply Run; [exact Hb|]. rewrite Ht.
      apply (Inv _ _ _ _ H) in Hb. rewrite Ht in Hb. exact Hb.
  - intros Hb Ht r out'. split; [split|].
    + intros H. apply (Inv _ _ _ _ H) in Hb. rewrite Ht in Hb. exact Hb.
    + intros H. apply Run; [exact Hb|]. rewrite Ht. exact H.
    + intros other H. apply Run; [exact Hb|]. rewrite Ht.
      apply (Inv _ _ _ _ H) in Hb. rewrite Ht in Hb. exact Hb.
Qed.

Lemma if_takes_one_branch_witness :
  let loop := While (BooleanLiteral true) Ren in
  evaluates (If (BooleanLiteral true) (Assign "x" (IntLiteral 1)) loop)
            EmptyState []
            (Returned (PyInt 1) Integer (Frame "x" (PyInt 1, Integer) EmptyState))
            [] /\
  evaluates (If (BooleanLiteral false) (Print (Variable' "y")) (IntLiteral 2))
            EmptyState [] (Returned (PyInt 2) Integer EmptyState) [] /\
  evaluates (If (IntLiteral 1) Ren Ren) EmptyState []
            (Raised InterpTypeError) [].
Proof.
  intros loop.
  assert (forall e r, evaluate 2 e EmptyState [] = (r, []) ->
                      r <> OutOfFuel -> evaluates e EmptyState [] r [])
    as run by (intros e r E N; exists 2%nat; split; assumption).
  split; [|split].
  - refine (proj2 (proj1 (proj1 (proj2 (if_takes_one_branch
              (BooleanLiteral true) (Assign "x" (IntLiteral 1)) loop
              EmptyState [] (PyBool true) Boolean EmptyState [] _))
              eq_refl eq_refl _ _)) _);
      (apply run; [reflexivity|discriminate]).
  - refine (proj2 (proj1 (proj2 (proj2 (if_takes_one_branch
              (BooleanLiteral false) (Print (Variable' "y")) (IntLiteral 2)
              EmptyState [] (PyBool false) Boolean EmptyState [] _))
              eq_refl eq_refl _ _)) _);
      (apply run; [reflexivity|discriminate]).
  - refine (proj1 (if_takes_one_branch (IntLiteral 1) Ren Ren
              EmptyState [] (PyInt 1) Integer EmptyState [] _) _);
      [apply run; [reflexivity|discriminate] | discriminate].
Defined.

(** C6 -- [Sequence] and [Program] of an empty list end exactly as the no-op
    node does, in [(None, Unit, env)]; of a one-element list exactly as that
    element does; and when the expressions of a longer list return one after
    the other, each from the environment its predecessor produced, the node
    returns the value, type and environment of the last. *)
Theorem sequence_threads_environment (env : State) (out : Stdout) :
  (forall r out',
     (evaluates (Sequence []) env out r out' <-> evaluates Ren env out r out')
     /\
     (evaluates (Program []) env out r out' <-> evaluates Ren env out r out')
     /\
     (evaluates Ren env out r out' <->
      r = Returned PyNone Unit env /\ out' = out)) /\
  (forall e r out',
     (evaluates (Sequence [e]) env out r out' <-> evaluates e env out r out')
     /\
     (evaluates (Program [e]) env out r out' <-> evaluates e env out r out'))
  /\
  (forall exprs v t env' out',
     threaded exprs env out v t env' out' ->
     evaluates (Sequence exprs) env out (Returned v t env') out' /\
     evaluates (Program exprs) env out (Returned v t env') out').
Proof.
  assert (forall r out',
             evaluates Ren env out r out' <->
             r = Returned PyNone Unit env /\ out' = out) as HRen.
  { intros r out'. split.
    - intros H. apply evaluates_inv in H. destruct H as [n [E _]].
      cbn in E. inversion E. split; reflexivity.
    - intros [-> ->]. exists 1%nat. split; [reflexivity|discriminate]. }
  assert (forall r out',
             evaluates (Sequence []) env out r out' <->
             evaluates Ren env out r out') as HNil.
  { intros r out'. split.
    - intros H. apply evaluates_inv in H. destruct H as [n [E N]].
      cbn [evaluate] in E. exists n. split; assumption.
    - intros [n [E N]]. exists (S n). split; assumption. }
  assert (forall e r out',
             evaluates (Sequence [e]) env out r out' <->
             evaluates e env out r out') as HOne.
  { intros e r out'. split.
    - intros H. apply evaluates_inv in H. destruct H as [n [E N]].
      cbn [evaluate] in E. exists n. split; [|exact N].
      rewrite <- E. symmetry. apply bind_ret.
    - intros [n [E N]]. exists (S n). split; [|exact N].
      cbn [evaluate]. rewrite <- E. apply bind_ret. }
  assert (forall exprs r out',
             evaluates (Program exprs) env out r out' <->
             evaluates (Sequence exprs) env out r out') as HProg.
  { intros exprs r out'.
    split; intros [n [E N]]; exists n; (split; [|exact N]).
    - rewrite <- Program_as_Sequence. exact E.
    - rewrite Program_as_Sequence. exact E. }
  split; [|split].
  - intros r out'. split; [apply HNil|]. split; [|apply HRen].
    rewrite HProg. apply HNil.
  - intros e r out'. split; [apply HOne|]. rewrite HProg. apply HOne.
  - intros exprs v t env' out' H.
    pose proof (evaluates_Sequence_threaded H) as HS.
    split; [exact HS|]. apply HProg. exact HS.
Qed.

Lemma sequence_threads_environment_witness :
  let x1 := Frame "x" (PyInt 1, Integer) EmptyState in
  let x2 := Frame "x" (PyInt 2, Integer) x1 in
  evaluates (Program [Assign "x" (IntLiteral 1);
                      Assign "x" (Add (Variable' "x") (IntLiteral 1));
                      Variable' "x"])
            EmptyState [] (Returned (PyInt 2) Integer x2) [].
Proof.
  intros x1 x2.
  assert (forall e s r, evaluate 3 e s [] = (r, []) ->
                        r <> OutOfFuel -> evaluates e s [] r [])
    as run by (intros e s r E N; exists 3%nat; split; assumption).
  refine (proj2 (proj2 (proj2 (sequence_threads_environment EmptyState []))
                  _ (PyInt 2) Integer x2 [] _)).
  apply (threaded_next _ _ _ _ (PyInt 1) Integer x1 []);
    [apply run; [reflexivity|discriminate]|].
  apply (threaded_next _ _ _ _ (PyInt 2) Integer x2 []);
    [apply run; [reflexivity|discriminate]|].
  apply threaded_last. apply run; [reflexivity|discriminate].
Defined.

(** C7 -- a comparison whose operands both return type [Unit] returns a
    constant of type [Boolean], whatever the two values are: [Lt] false,
    [Lte] true, [Gt] false, [Gte] true, [Eq] true, [Ne] false. *)
Theorem unit_comparisons_constant (left right : Expr) (env : State)
    (out : Stdout) (lv rv : Value) (env1 env2 : State) (out1 out2 : Stdout) :
  evaluates left env out (Returned lv Unit env1) out1 ->
  evaluates right env1 out1 (Returned rv Unit env2) out2 ->
  evaluates (Lt left right) env out (Returned (PyBool false) Boolean env2) out2
  /\
  evaluates (Lte left right) env out (Returned (PyBool true) Boolean env2) out2
  /\
  evaluates (Gt left right) env out (Returned (PyBool false) Boolean env2) out2
  /\
  evaluates (Gte left right) env out (Returned (PyBool true) Boolean env2) out2
  /\
  evaluates (Eq left right) env out (Returned (PyBool true) Boolean env2) out2
  /\
  evaluates (Ne left right) env out (Returned (PyBool false) Boolean env2) out2.
Proof.
  intros Hl Hr.
  destruct (common_fuel Hl Hr) as [n [El Er]].
  pose proof (fun op => binary_returned (op:=op) El Er) as B.
  repeat split; try discriminate;
    exists (S n); cbn [evaluate]; rewrite B;
    (split; [reflexivity|discriminate]).
Qed.

Lemma unit_comparisons_constant_witness :
  evaluates (Eq Ren Ren) EmptyState []
            (Returned (PyBool true) Boolean EmptyState) [] /\
  evaluates (Lt Ren Ren) EmptyState []
            (Returned (PyBool false) Boolean EmptyState) [].
Proof.
  assert (evaluates Ren EmptyState [] (Returned PyNone Unit EmptyState) [])
    as HRen by (exists 1%nat; split; [reflexivity|discriminate]).
  pose proof (unit_comparisons_constant Ren Ren EmptyState [] PyNone PyNone
                EmptyState EmptyState [] [] HRen HRen) as H.
  split.
  - exact (proj1 (proj2 (proj2 (proj2 (proj2 H))))).
  - exact (proj1 H).
Defined.

(** C8 -- [Variable(name)] with [name] not bound in [env] raises the
    syntax-class error, and nothing else (no value is returned in its
    place); with [name] bound it returns the bound value and type and the
    environment as it was. *)
Theorem variable_lookup (env : State) (name : string) (out : Stdout) :
  (get_value env name = None ->
     (forall n, evaluate (S n) (Variable' name) env out
                = (Raised InterpSyntaxError, out)) /\
     (forall r out', evaluates (Variable' name) env out r out' ->
                     r = Raised InterpSyntaxError /\ out' = out)) /\
  (forall v t, get_value env name = Some (v, t) ->
     (forall n, evaluate (S n) (Variable' name) env out
                = (Returned v t env, out)) /\
     evaluates (Variable' name) env out (Returned v t env) out).
Proof.
  split.
  - intros E. split.
    + intros n. rewrite evaluate_Variable, E. reflexivity.
    + intros r out' H. apply evaluates_inv in H. destruct H as [n [H _]].
      rewrite evaluate_Variable, E in H. inversion H. split; reflexivity.
  - intros v t E. split.
    + intros n. rewrite evaluate_Variable, E. reflexivity.
    + exists 1%nat. rewrite evaluate_Variable, E.
      split; [reflexivity|discriminate].
Qed.

Lemma variable_lookup_witness :
  let env := Frame "x" (PyInt 5, Integer) EmptyState in
  evaluates (Variable' "x") env [] (Returned (PyInt 5) Integer env) [] /\
  evaluate 1 (Variable' "y") env [] = (Raised InterpSyntaxError, []) /\
  evaluate 1 (Variable' "x") EmptyState [] = (Raised InterpSyntaxError, []).
Proof.
  intros env. split; [|split].
  - exact (proj2 (proj2 (variable_lookup env "x" []) (PyInt 5) Integer
                    eq_refl)).
  - exact (proj1 (proj1 (variable_lookup env "y" []) eq_refl) 0%nat).
  - exact (proj1 (proj1 (variable_lookup EmptyState "x" []) eq_refl) 0%nat).
Defined.

(** C9 -- extending an environment with [(n, v, t)] and looking [n] up returns
    [(v, t)], whether or not [n] was bound before; the other names resolve as
    in the receiver; the empty environment finds nothing.  In the store of
    objects the extension allocates the new frame on top of the receiver and
    changes no existing object: every reference keeps the chain it had, and
    every lookup through it answers as before. *)
Theorem environment_round_trip (env : State) (n : string) (v : Value)
    (t : Ty) :
  get_value (set_value env n v t) n = Some (v, t) /\
  (forall m, m <> n ->
     get_value (set_value env n v t) m = get_value env m) /\
  (forall m, get_value EmptyState m = None) /\
  (forall h self,
     represents h self env ->
     represents (fst (set_value_obj h self n v t))
                (snd (set_value_obj h self n v t))
                (set_value env n v t) /\
     forall r0 s0,
       represents h r0 s0 ->
       represents (fst (set_value_obj h self n v t)) r0 s0 /\
       forall m, exists k, forall k', (k <= k')%nat ->
         get_value_obj k' (fst (set_value_obj h self n v t)) r0 m
         = Some (get_value s0 m)
         /\ get_value_obj k' h r0 m = Some (get_value s0 m)).
Proof.
  split; [apply get_value_set_value|]. split; [|split].
  - intros m Hm. apply get_value_set_value_other. congruence.
  - reflexivity.
  - intros h self Hself. simpl. split.
    + eapply represents_frame.
      * rewrite nth_error_app2 by apply Nat.le_refl.
        rewrite Nat.sub_diag. reflexivity.
      * apply represents_extend. exact Hself.
    + intros r0 s0 H0.
      pose proof (represents_extend (o:=StateObj n (v, t) self) H0) as H1.
      split; [exact H1|]. intros m.
      destruct (get_value_obj_represents H1 m) as [k1 F1].
      destruct (get_value_obj_represents H0 m) as [k0 F0].
      exists (Nat.max k1 k0). intros k' Hk. split.
      * apply F1. lia.
      * apply F0. lia.
Qed.

Lemma environment_round_trip_witness :
  let h := [EmptyStateObj; StateObj "x" (PyInt 1, Integer) 0%nat] in
  let env := Frame "x" (PyInt 1, Integer) EmptyState in
  get_value (set_value env "x" (PyInt 2) Integer) "x"
    = Some (PyInt 2, Integer) /\
  get_value env "x" = Some (PyInt 1, Integer) /\
  represents (fst (set_value_obj h 1%nat "x" (PyInt 2) Integer)) 1%nat env.
Proof.
  intros h env.
  assert (represents h 1%nat env) as Henv.
  { eapply represents_frame; [reflexivity|].
    apply represents_empty. reflexivity. }
  pose proof (environment_round_trip env "x" (PyInt 2) Integer) as H.
  split; [exact (proj1 H)|]. split; [reflexivity|].
  exact (proj1 (proj2 (proj2 (proj2 (proj2 H)) h 1%nat Henv) 1%nat env Henv)).
Defined.

(** C10 -- when [env] binds a name to the [Unit] value (the host's [None]
    with type [Unit]), [Variable] on that name returns [(None, Unit)] and the
    environment as it was: the lookup answers with the bound pair, which is
    not the not-found answer, and no syntax-class error is raised. *)
Theorem variable_reads_unit_binding (env : State) (name : string)
    (out : Stdout) :
  get_value env name = Some (PyNone, Unit) ->
  get_value env name <> None /\
  (forall n, evaluate (S n) (Variable' name) env out
             = (Returned PyNone Unit env, out)) /\
  (forall r out', evaluates (Variable' name) env out r out' ->
                  r = Returned PyNone Unit env /\ out' = out).
Proof.
  intros E. split; [congruence|]. split.
  - intros n. rewrite evaluate_Variable, E. reflexivity.
  - intros r out' H. apply evaluates_inv in H. destruct H as [n [H _]].
    rewrite evaluate_Variable, E in H. inversion H. split; reflexivity.
Qed.

Lemma variable_reads_unit_binding_witness :
  let env := Frame "y" (PyInt 1, Integer) (Frame "x" (PyNone, Unit) EmptyState)
  in
  run_stimpl 4 (Program [Assign "x" Ren; Assign "y" (IntLiteral 1)])
    = (Returned (PyInt 1) Integer env, []) /\
  evaluate 1 (Variable' "x") env [] = (Returned PyNone Unit env, []).
Proof.
  intros env. split; [reflexivity|].
  exact (proj1 (proj2 (variable_reads_unit_binding env "x" [] eq_refl)) 0%nat).
Defined.

(** * Further properties of the evaluator *)

(** An evaluation that ends within the given fuel, by running it. *)
Ltac by_running n := exists n; split; [reflexivity | discriminate].

(** ** What a returning evaluation does to the environment *)

Lemma returns_in_ret (P : State -> Prop) (v : Value) (t : Ty) (s : State) :
  P s -> returns_in P (ret v t s).
Proof. intros H out v' t' s' o E. inversion E; subst. exact H. Qed.

Lemma returns_in_raise (P : State -> Prop) (e : Error) :
  returns_in P (raise e).
Proof. intros out v t s o E. discriminate E. Qed.

Lemma returns_in_out_of_fuel (P : State -> Prop) : returns_in P out_of_fuel.
Proof. intros out v t s o E. discriminate E. Qed.

Lemma returns_in_print (P : State -> Prop) (p : Printed) (k : Eval) :
  returns_in P k -> returns_in P (print p k).
Proof. intros H out. apply H. Qed.

Lemma returns_in_host (P : State -> Prop) (o : option Value)
    (k : Value -> Eval) :
  (forall v, returns_in P (k v)) -> returns_in P (host o k).
Proof.
  intros H. destruct o as [v|]; simpl; [apply H|].
  intros out v t s o E. discriminate E.
Qed.

Lemma returns_in_bind (Q P : State -> Prop) (m : Eval)
    (k : Value -> Ty -> State -> Eval) :
  returns_in Q m ->
  (forall v t s, Q s -> returns_in P (k v t s)) ->
  returns_in P (bind m k).
Proof.
  intros Hm Hk out v t s o E.
  destruct (bind_returned_inv E) as [v1 [t1 [s1 [o1 [E1 E2]]]]].
  exact (Hk _ _ _ (Hm _ _ _ _ _ E1) _ _ _ _ _ E2).
Qed.

Lemma returns_in_binary (Q Q' P : State -> Prop) (l : Eval)
    (r : State -> Eval) (op : Value -> Ty -> Value -> State -> Eval) :
  returns_in Q l ->
  (forall s, Q s -> returns_in Q' (r s)) ->
  (forall lv t rv s, Q' s -> returns_in P (op lv t rv s)) ->
  returns_in P (binary l r op).
Proof.
  intros Hl Hr Hop. unfold binary.
  apply (returns_in_bind Q); [exact Hl | intros lv lt s1 H1].
  apply (returns_in_bind Q'); [apply Hr; exact H1 | intros rv rt s2 H2].
  destruct (negb (Ty_eqb lt rt)); [apply returns_in_raise|].
  apply Hop. exact H2.
Qed.

(** The operators applied after the two operands return the state they were
    given, or nothing. *)
Ltac returns_in_op :=
  intros; unfold comparison;
  repeat match goal with
         | |- returns_in _ (match ?x with _ => _ end) => destruct x
         | |- returns_in _ (if ?x then _ else _) => destruct x
         end;
  first [ apply returns_in_raise
        | apply returns_in_ret; assumption
        | apply returns_in_host; intros; apply returns_in_ret; assumption ].

Section StateRelation.

(** A relation that holds between a state and itself, that composes, and
    that holds between a state and its extension by any binding [Assign] is
    allowed to make, holds between the states before and after every
    returning evaluation. *)
Variable R : State -> State -> Prop.
Hypothesis R_refl : forall s, R s s.
Hypothesis R_trans : forall a b c, R a b -> R b c -> R a c.
Hypothesis R_assign :
  forall s x v t, assignable s x t = true -> R s (set_value s x v t).

Lemma returns_in_weaken (s s1 : State) (m : Eval) :
  R s s1 -> returns_in (R s1) m -> returns_in (R s) m.
Proof.
  intros H Hm out v t s' o E. exact (R_trans _ _ _ H (Hm _ _ _ _ _ E)).
Qed.

Lemma evaluate_related (n : nat) :
  (forall e s, returns_in (R s) (evaluate n e s)) /\
  (forall c b r ct s, returns_in (R s) (while_loop n c b r ct s)).
Proof.
  induction n as [|n [IHe IHw]].
  - split.
    + intros. apply returns_in_out_of_fuel.
    + intros c b r ct s. simpl. destruct (truthy r).
      * apply returns_in_out_of_fuel.
      * apply returns_in_ret. apply R_refl.
  - assert (forall s s1 e, R s s1 -> returns_in (R s) (evaluate n e s1))
      as IHe'.
    { intros s s1 e H. exact (returns_in_weaken _ _ _ H (IHe e s1)). }
    assert (forall s s1 c b r ct, R s s1 ->
              returns_in (R s) (while_loop n c b r ct s1)) as IHw'.
    { intros s s1 c b r ct H.
      exact (returns_in_weaken _ _ _ H (IHw c b r ct s1)). }
    split.
    + intros e s.
      destruct e; cbn [evaluate];
        try (apply returns_in_ret; apply R_refl);
        try (apply (returns_in_binary (R s) (R s));
             [ apply IHe | intros; apply IHe'; assumption | returns_in_op ]).
      * (* Print *)
        apply (returns_in_bind (R s)); [apply IHe | intros v t s1 H1].
        apply returns_in_print. apply returns_in_ret. exact H1.
      * (* Sequence *)
        destruct exprs as [|first rest]; [apply IHe|].
        apply (returns_in_bind (R s)); [apply IHe | intros v t s1 H1].
        destruct rest; [apply returns_in_ret; exact H1 | apply IHe'; exact H1].
      * (* Program *)
        destruct exprs as [|first rest]; [apply IHe|].
        apply (returns_in_bind (R s)); [apply IHe | intros v t s1 H1].
        destruct rest; [apply returns_in_ret; exact H1 | apply IHe'; exact H1].
      * (* Variable *)
        destruct (get_value s variable_name) as [[v t]|].
        -- apply returns_in_ret. apply R_refl.
        -- apply returns_in_raise.
      * (* Assign *)
        apply (returns_in_bind (R s)); [apply IHe | intros v t s1 H1].
        cbv zeta.
        pose proof (R_assign s1 variable v t) as HA. unfold assignable in HA.
        destruct (get_value s1 variable) as [[v0 t0]|]; simpl.
        -- rewrite andb_true_r. destruct (Ty_eqb t t0); simpl.
           ++ apply returns_in_ret. exact (R_trans _ _ _ H1 (HA eq_refl)).
           ++ apply returns_in_raise.
        -- apply returns_in_ret. exact (R_trans _ _ _ H1 (HA eq_refl)).
      * (* Not *)
        apply (returns_in_bind (R s)); [apply IHe | intros v t s1 H1].
        destruct t; try apply returns_in_raise.
        apply returns_in_ret. exact H1.
      * (* If *)
        apply (returns_in_bind (R s)); [apply IHe | intros v t s1 H1].
        destruct t; try apply returns_in_raise.
        destruct (truthy v); apply IHe'; exact H1.
      * (* While *)
        apply (returns_in_bind (R s)); [apply IHe | intros v t s1 H1].
        destruct t; try apply returns_in_raise. apply IHw'. exact H1.
    + intros c b r ct s. cbn [while_loop].
      destruct (truthy r); [|apply returns_in_ret; apply R_refl].
      apply (returns_in_bind (R s)); [apply IHe | intros v t s1 H1].
      apply (returns_in_bind (R s)); [apply IHe'; exact H1
                                     | intros v2 t2 s2 H2].
      destruct t2; try apply returns_in_raise. apply IHw'. exact H2.
Qed.

End StateRelation.

Lemma extends_trans (a b c : State) :
  extends a b -> extends b c -> extends a c.
Proof.
  intros Hab Hbc. induction Hbc as [|name value s' _ IH].
  - exact Hab.
  - apply extends_frame. exact IH.
Qed.

Lemma keeps_types_refl (s : State) : keeps_types s s.
Proof. intros x v t E. exists v. exact E. Qed.

Lemma keeps_types_trans (a b c : State) :
  keeps_types a b -> keeps_types b c -> keeps_types a c.
Proof.
  intros Hab Hbc x v t E. destruct (Hab _ _ _ E) as [v1 E1].
  exact (Hbc _ _ _ E1).
Qed.

Lemma keeps_types_assign (s : State) (x : string) (v : Value) (t : Ty) :
  assignable s x t = true -> keeps_types s (set_value s x v t).
Proof.
  unfold assignable. intros HA y v0 t0 E. simpl.
  destruct (String.eqb_spec x y) as [->|Hne].
  - rewrite E in HA. apply Ty_eqb_eq in HA. subst t0.
    exists v. reflexivity.
  - exists v0. exact E.
Qed.

(** X1 -- from an environment whose values agree with their tags, an
    evaluation never applies a host operator to operands it is not defined
    on, and what it returns is a value of the returned type with an
    environment whose values agree with their tags again. *)
Theorem evaluation_keeps_tags (n : nat) (e : Expr) (s : State) (out : Stdout)
    (r : Outcome) (out' : Stdout) :
  tagged s = true ->
  evaluate n e s out = (r, out') ->
  r <> Unmodelled /\
  forall v t s', r = Returned v t s' ->
                 has_type v t = true /\ tagged s' = true.
Proof.
  intros Hs E. pose proof (proj1 (evaluate_sound n) e s Hs out) as H.
  rewrite E in H. simpl in H. split.
  - intros ->. exact H.
  - intros v t s' ->. exact H.
Qed.

Lemma evaluation_keeps_tags_witness :
  let env := Frame "s" (PyStr "ab", String) EmptyState in
  let e := Assign "t" (Add (Variable' "s") (Variable' "s")) in
  evaluate 3 e env [] <> (Unmodelled, []) /\
  has_type (PyStr "abab") String = true /\
  tagged (Frame "t" (PyStr "abab", String) env) = true.
Proof.
  intros env e.
  pose proof (evaluation_keeps_tags 3 e env []
                (Returned (PyStr "abab") String
                          (Frame "t" (PyStr "abab", String) env)) []
                eq_refl eq_refl) as [_ H].
  split; [discriminate|]. exact (H _ _ _ eq_refl).
Defined.

(** X2 -- an evaluation that returns hands back the environment it was given
    with frames added on top: no frame is dropped or replaced, in any node
    kind and however long a loop runs. *)
Theorem environment_only_grows (e : Expr) (s : State) (out : Stdout)
    (v : Value) (t : Ty) (s' : State) (out' : Stdout) :
  evaluates e s out (Returned v t s') out' -> extends s s'.
Proof.
  intros [n [E _]].
  refine (proj1 (evaluate_related extends _ _ _ n) e s out v t s' out' E).
  - apply extends_same.
  - intros a b c. apply extends_trans.
  - intros s0 x v0 t0 _. apply extends_frame. apply extends_same.
Qed.

Lemma environment_only_grows_witness :
  let i0 := Frame "i" (PyInt 0, Integer) EmptyState in
  let count :=
    While (Lt (Variable' "i") (IntLiteral 2))
          (Assign "i" (Add (Variable' "i") (IntLiteral 1))) in
  extends i0 (Frame "i" (PyInt 2, Integer) (Frame "i" (PyInt 1, Integer) i0)).
Proof.
  intros i0 count.
  refine (environment_only_grows count i0 [] (PyBool false) Boolean _ [] _).
  exists 6%nat. split; [reflexivity|discriminate].
Defined.

(** X3 -- an evaluation that returns leaves every name that was bound still
    bound, and with the type it had: no node can change the type of a
    variable or unbind it, only its value. *)
Theorem binding_types_are_kept (e : Expr) (s : State) (out : Stdout)
    (v : Value) (t : Ty) (s' : State) (out' : Stdout) :
  evaluates e s out (Returned v t s') out' ->
  forall x v0 t0, get_value s x = Some (v0, t0) ->
                  exists v1, get_value s' x = Some (v1, t0).
Proof.
  intros [n [E _]].
  refine (proj1 (evaluate_related keeps_types _ _ _ n) e s out v t s' out' E).
  - apply keeps_types_refl.
  - apply keeps_types_trans.
  - apply keeps_types_assign.
Qed.

Lemma binding_types_are_kept_witness :
  let env := Frame "x" (PyInt 1, Integer) EmptyState in
  let e := Sequence [Assign "y" (StringLiteral "a");
                     Assign "x" (Add (Variable' "x") (IntLiteral 4))] in
  exists v1,
    get_value (Frame "x" (PyInt 5, Integer)
                     (Frame "y" (PyStr "a", String) env)) "x"
    = Some (v1, Integer).
Proof.
  intros env e.
  refine (binding_types_are_kept e env [] (PyInt 5) Integer _ [] _
            "x" (PyInt 1) Integer eq_refl).
  exists 5%nat. split; [reflexivity|discriminate].
Defined.

(** ** The output log *)











(** ** The binary nodes *)

Lemma evaluate_binary_node (node : Expr -> Expr -> Expr) :
  In node binary_nodes ->
  exists op, forall n l r s,
    evaluate (S n) (node l r) s = binary (evaluate n l s) (evaluate n r) op.
Proof.
  unfold binary_nodes. simpl.
  intros H; repeat (destruct H as [<-|H]); [..|contradiction];
    eexists; intros; cbn [evaluate]; reflexivity.
Qed.

Lemma binary_left_raised {l : Eval} {r : State -> Eval}
    {op : Value -> Ty -> Value -> State -> Eval} {out : Stdout}
    {e : Error} {o1 : Stdout} :
  l out = (Raised e, o1) -> binary l r op out = (Raised e, o1).
Proof. intros El. unfold binary. apply bind_raised. exact El. Qed.

(** X5 -- in each of the twelve binary nodes, operands that return different
    types raise the type-class error, after both operands have run.  The
    test comes before anything the node does with the values, so a [Divide]
    of an [Integer] by a [FloatingPoint] zero is a type error, not an
    arithmetic one. *)
Theorem operand_types_must_match (node : Expr -> Expr -> Expr)
    (left right : Expr) (env : State) (out : Stdout) (lv rv : Value)
    (lt rt : Ty) (env1 env2 : State) (out1 out2 : Stdout) :
  In node binary_nodes ->
  evaluates left env out (Returned lv lt env1) out1 ->
  evaluates right env1 out1 (Returned rv rt env2) out2 ->
  lt <> rt ->
  evaluates (node left right) env out (Raised InterpTypeError) out2.
Proof.
  intros Hn Hl Hr Hne.
  destruct (evaluate_binary_node node Hn) as [op Hop].
  destruct (common_fuel Hl Hr) as [n [El Er]].
  exists (S n). split; [|discriminate].
  rewrite Hop, (binary_returned El Er).
  apply Ty_eqb_neq in Hne. rewrite Hne. reflexivity.
Qed.

Lemma operand_types_must_match_witness :
  evaluates (Divide (IntLiteral 1) (FloatingPointLiteral 0.0%float))
            EmptyState [] (Raised InterpTypeError) [] /\
  evaluates (Eq (IntLiteral 1) (BooleanLiteral true))
            EmptyState [] (Raised InterpTypeError) [].
Proof.
  assert (forall e v t,
             evaluate 1 e EmptyState [] = (Returned v t EmptyState, []) ->
             evaluates e EmptyState [] (Returned v t EmptyState) []) as lit.
  { intros e v t E. exists 1%nat. split; [exact E|discriminate]. }
  split.
  - refine (operand_types_must_match Divide _ _ EmptyState []
              (PyInt 1) (PyFloat 0.0%float) Integer FloatingPoint
              EmptyState EmptyState [] [] _ _ _ _);
      [simpl; tauto | apply lit; reflexivity | apply lit; reflexivity
      | discriminate].
  - refine (operand_types_must_match Eq _ _ EmptyState []
              (PyInt 1) (PyBool true) Integer Boolean
              EmptyState EmptyState [] [] _ _ _ _);
      [simpl; tauto | apply lit; reflexivity | apply lit; reflexivity
      | discriminate].
Defined.

(** X6 -- in each of the twelve binary nodes the operands run left to right
    and the first exception ends the node: an exception of the left operand
    is the node's, with the output as the left operand left it, whatever the
    right operand is; an exception of the right operand, run from the
    environment and output of the left, is the node's as well. *)
Theorem operand_exception_propagates (node : Expr -> Expr -> Expr)
    (left right : Expr) (env : State) (out : Stdout) (e : Error) :
  In node binary_nodes ->
  (forall out1,
     evaluates left env out (Raised e) out1 ->
     evaluates (node left right) env out (Raised e) out1) /\
  (forall lv lt env1 out1 out2,
     evaluates left env out (Returned lv lt env1) out1 ->
     evaluates right env1 out1 (Raised e) out2 ->
     evaluates (node left right) env out (Raised e) out2).
Proof.
  intros Hn. destruct (evaluate_binary_node node Hn) as [op Hop]. split.
  - intros out1 [n [El _]]. exists (S n). split; [|discriminate].
    rewrite Hop. exact (binary_left_raised El).
  - intros lv lt env1 out1 out2 Hl Hr.
    destruct (common_fuel Hl Hr) as [n [El Er]].
    exists (S n). split; [|discriminate].
    rewrite Hop. exact (binary_right_raised El Er).
Qed.

Lemma operand_exception_propagates_witness :
  evaluates (Add (Print (Variable' "x")) (Print (IntLiteral 1)))
            EmptyState [] (Raised InterpSyntaxError) [] /\
  evaluates (Lt (Print (IntLiteral 1)) (Variable' "x"))
            EmptyState [] (Raised InterpSyntaxError)
            [PrintedValue (PyInt 1)].
Proof.
  split.
  - refine (proj1 (operand_exception_propagates Add _ _ EmptyState []
                     InterpSyntaxError _) [] _); [simpl; tauto|].
    exists 2%nat. split; [reflexivity|discriminate].
  - refine (proj2 (operand_exception_propagates Lt _ _ EmptyState []
                     InterpSyntaxError _)
                  (PyInt 1) Integer EmptyState [PrintedValue (PyInt 1)] _
                  _ _); [simpl; tauto| |];
      (exists 2%nat; split; [reflexivity|discriminate]).
Defined.

(** X7 -- [Add], [Subtract] and [Multiply] on operands of one type: integers
    are added, subtracted and multiplied without bound, floats in binary64,
    strings are concatenated by [Add] and refused by the other two, and
    [Unit] and [Boolean] operands raise the type-class error in all three.
    The result has the operands' type and the environment of the right
    operand. *)
Theorem arithmetic_by_type (left right : Expr) (env : State) (out : Stdout)
    (lv rv : Value) (t : Ty) (env1 env2 : State) (out1 out2 : Stdout) :
  evaluates left env out (Returned lv t env1) out1 ->
  evaluates right env1 out1 (Returned rv t env2) out2 ->
  let returns node v :=
    evaluates (node left right) env out (Returned v t env2) out2 in
  let refuses node :=
    evaluates (node left right) env out (Raised InterpTypeError) out2 in
  match t with
  | Integer =>
      forall a b, lv = PyInt a -> rv = PyInt b ->
        returns Add (PyInt (a + b)) /\ returns Subtract (PyInt (a - b)) /\
        returns Multiply (PyInt (a * b))
  | FloatingPoint =>
      forall a b, lv = PyFloat a -> rv = PyFloat b ->
        returns Add (PyFloat (a + b)%float) /\
        returns Subtract (PyFloat (a - b)%float) /\
        returns Multiply (PyFloat (a * b)%float)
  | String =>
      forall a b, lv = PyStr a -> rv = PyStr b ->
        returns Add (PyStr (a ++ b)%string) /\
        refuses Subtract /\ refuses Multiply
  | Unit | Boolean =>
      refuses Add /\ refuses Subtract /\ refuses Multiply
  end.
Proof.
  intros Hl Hr returns refuses. subst returns refuses.
  destruct (common_fuel Hl Hr) as [n [El Er]].
  pose proof (fun op => binary_returned (op:=op) El Er) as B.
  rewrite Ty_eqb_refl in B. simpl in B.
  destruct t; try (intros a b -> ->);
    repeat split; try discriminate;
    exists (S n); cbn [evaluate]; rewrite B;
    (split; [reflexivity|discriminate]).
Qed.

Lemma arithmetic_by_type_witness :
  evaluates (Add (StringLiteral "ab") (StringLiteral "cd")) EmptyState []
            (Returned (PyStr "abcd") String EmptyState) [] /\
  evaluates (Multiply (StringLiteral "ab") (StringLiteral "cd")) EmptyState []
            (Raised InterpTypeError) [] /\
  evaluates (Subtract (IntLiteral 2) (IntLiteral 5)) EmptyState []
            (Returned (PyInt (-3)) Integer EmptyState) [] /\
  evaluates (Add (BooleanLiteral true) (BooleanLiteral true)) EmptyState []
            (Raised InterpTypeError) [].
Proof.
  pose proof (arithmetic_by_type (StringLiteral "ab") (StringLiteral "cd")
                EmptyState [] (PyStr "ab") (PyStr "cd") String
                EmptyState EmptyState [] []
                ltac:(by_running 1%nat) ltac:(by_running 1%nat)
                "ab" "cd" eq_refl eq_refl) as HS.
  pose proof (arithmetic_by_type (IntLiteral 2) (IntLiteral 5)
                EmptyState [] (PyInt 2) (PyInt 5) Integer
                EmptyState EmptyState [] []
                ltac:(by_running 1%nat) ltac:(by_running 1%nat)
                2 5 eq_refl eq_refl) as HI.
  pose proof (arithmetic_by_type (BooleanLiteral true) (BooleanLiteral true)
                EmptyState [] (PyBool true) (PyBool true) Boolean
                EmptyState EmptyState [] []
                ltac:(by_running 1%nat) ltac:(by_running 1%nat)) as HB.
  split; [exact (proj1 HS)|]. split; [exact (proj2 (proj2 HS))|].
  split; [exact (proj1 (proj2 HI))|]. exact (proj1 HB).
Defined.

(** ** Print, sequences and loops *)

(** X8 -- [Print] is transparent: it ends exactly as its operand does.  When
    the operand returns, one line is written after the operand's output --
    the token [Unit] for a value of type [Unit], the value otherwise -- and
    when the operand raises, nothing is written. *)
Theorem print_is_transparent (e : Expr) (s : State) (out : Stdout)
    (r : Outcome) (out1 : Stdout) :
  evaluates e s out r out1 ->
  let written :=
    match r with
    | Returned v t _ => out1 ++ [printed_line v t]
    | _ => out1
    end in
  evaluates (Print e) s out r written /\
  forall r' o', evaluates (Print e) s out r' o' -> r' = r /\ o' = written.
Proof.
  intros H written.
  assert (evaluates (Print e) s out r written) as HP.
  { destruct H as [n [E N]]. exists (S n). split; [|exact N].
    cbn [evaluate]. unfold bind. rewrite E. subst written.
    destruct r as [v [] s1| | |]; reflexivity. }
  split; [exact HP|].
  intros r' o' H'. destruct (evaluates_det HP H') as [-> ->].
  split; reflexivity.
Qed.

Lemma print_is_transparent_witness :
  evaluates (Print (Print Ren)) EmptyState []
            (Returned PyNone Unit EmptyState) [PrintedUnit; PrintedUnit] /\
  evaluates (Print (Add (IntLiteral 1) (StringLiteral "a"))) EmptyState []
            (Raised InterpTypeError) [].
Proof.
  split.
  - exact (proj1 (print_is_transparent (Print Ren) EmptyState []
                    (Returned PyNone Unit EmptyState) [PrintedUnit]
                    ltac:(by_running 2%nat))).
  - exact (proj1 (print_is_transparent
                    (Add (IntLiteral 1) (StringLiteral "a")) EmptyState []
                    (Raised InterpTypeError) [] ltac:(by_running 2%nat))).
Defined.

Lemma evaluates_Sequence_one (e : Expr) (s : State) (out : Stdout)
    (r : Outcome) (o : Stdout) :
  evaluates (Sequence [e]) s out r o <-> evaluates e s out r o.
Proof.
  split.
  - intros H. apply evaluates_inv in H. destruct H as [n [E N]].
    cbn [evaluate] in E. exists n. split; [|exact N].
    rewrite <- E. symmetry. apply bind_ret.
  - intros [n [E N]]. exists (S n). split; [|exact N].
    cbn [evaluate]. rewrite <- E. apply bind_ret.
Qed.

(** X9 -- a [Sequence] or [Program] of a first expression and more: when the
    first expression returns, the node ends exactly as the [Sequence] of the
    remaining expressions does from the environment and output the first one
    left, its value and type being dropped; when the first expression does
    not return, the node ends as it does and the remaining expressions are
    not evaluated. *)
Theorem sequence_unfolds (first next : Expr) (rest : list Expr) (s : State)
    (out : Stdout) (r1 : Outcome) (out1 : Stdout) :
  evaluates first s out r1 out1 ->
  match r1 with
  | Returned _ _ s1 =>
      forall r o,
        (evaluates (Sequence (first :: next :: rest)) s out r o <->
         evaluates (Sequence (next :: rest)) s1 out1 r o) /\
        (evaluates (Program (first :: next :: rest)) s out r o <->
         evaluates (Sequence (next :: rest)) s1 out1 r o)
  | _ =>
      forall others,
        evaluates (Sequence (first :: others)) s out r1 out1 /\
        evaluates (Program (first :: others)) s out r1 out1
  end.
Proof.
  intros H1. destruct r1 as [v1 t1 s1|e| |].
  - assert (forall r o,
               evaluates (Sequence (first :: next :: rest)) s out r o <->
               evaluates (Sequence (next :: rest)) s1 out1 r o) as HS.
    { intros r o. split.
      - intros H. apply evaluates_inv in H. destruct H as [n [E N]].
        cbn [evaluate] in E.
        destruct (bind_ends E N) as [r' [o' [E1 N1]]].
        rewrite (bind_returned (evaluates_at H1 E1 N1)) in E.
        exists n. split; assumption.
      - intros H. destruct (common_fuel H1 H) as [n [E1 E2]].
        destruct H as [_ [_ N]]. exists (S n). split; [|exact N].
        cbn [evaluate]. rewrite (bind_returned E1). exact E2. }
    intros r o. split; [apply HS|]. rewrite <- HS.
    split; intros [n [E N]]; exists n; (split; [|exact N]).
    + rewrite <- Program_as_Sequence. exact E.
    + rewrite Program_as_Sequence. exact E.
  - intros others. destruct H1 as [n [E _]].
    split; exists (S n); (split; [|discriminate]); cbn [evaluate];
      exact (bind_raised E).
  - intros others. destruct H1 as [n [E _]].
    split; exists (S n); (split; [|discriminate]); cbn [evaluate];
      unfold bind; rewrite E; reflexivity.
  - destruct H1 as [_ [_ N]]. congruence.
Qed.

Lemma sequence_unfolds_witness :
  evaluates (Sequence [Variable' "x"; Print (IntLiteral 1)]) EmptyState []
            (Raised InterpSyntaxError) [] /\
  (evaluates (Program [Assign "x" (IntLiteral 1); Variable' "x"])
             EmptyState []
             (Returned (PyInt 1) Integer (Frame "x" (PyInt 1, Integer) EmptyState))
             []).
Proof.
  split.
  - exact (proj1 (sequence_unfolds (Variable' "x") Ren [] EmptyState []
                    (Raised InterpSyntaxError) [] ltac:(by_running 1%nat)
                    [Print (IntLiteral 1)])).
  - apply (proj2 (sequence_unfolds (Assign "x" (IntLiteral 1))
                    (Variable' "x") [] EmptyState []
                    (Returned (PyInt 1) Integer
                              (Frame "x" (PyInt 1, Integer) EmptyState)) []
                    ltac:(by_running 2%nat) _ _)).
    by_running 2%nat.
Defined.

Lemma bind_not_returned {m : Eval} {k : Value -> Ty -> State -> Eval}
    {out : Stdout} {r : Outcome} {o : Stdout} :
  m out = (r, o) -> (forall v t s, r <> Returned v t s) ->
  bind m k out = (r, o).
Proof.
  intros E H. unfold bind. rewrite E.
  destruct r as [v t s| | |]; try reflexivity. elim (H v t s). reflexivity.
Qed.

Lemma evaluate_Sequence_cons (n : nat) (first next : Expr)
    (rest : list Expr) (s : State) :
  evaluate (S n) (Sequence (first :: next :: rest)) s
  = bind (evaluate n first s)
         (fun _ _ s1 => evaluate n (Sequence (next :: rest)) s1).
Proof. reflexivity. Qed.

Lemma evaluate_Sequence_one (n : nat) (e : Expr) (s : State) (out : Stdout) :
  evaluate (S n) (Sequence [e]) s out = evaluate n e s out.
Proof. cbn [evaluate]. apply bind_ret. Qed.

(** An iteration of the loop statement is the body followed by the whole
    [While] node. *)
Lemma while_loop_S (n : nat) (c b : Expr) (r : Value) (ct : Ty) (s : State) :
  truthy r = true ->
  while_loop (S n) c b r ct s
  = bind (evaluate n b s) (fun _ _ s2 => evaluate (S n) (While c b) s2).
Proof. intros Hr. cbn [while_loop]. rewrite Hr. reflexivity. Qed.

(** X10 -- a [While] whose first check returns a true [Boolean] is one
    evaluation of the body followed by the same [While] again: it ends
    exactly as the sequence of the body and the loop does from the
    environment and output that check left. *)
Theorem while_unrolls (cond body : Expr) (s : State) (out : Stdout)
    (cv : Value) (s1 : State) (out1 : Stdout) :
  evaluates cond s out (Returned cv Boolean s1) out1 ->
  truthy cv = true ->
  forall r o,
    evaluates (While cond body) s out r o <->
    evaluates (Sequence [body; While cond body]) s1 out1 r o.
Proof.
  intros Hc Hv r o. rewrite <- (evaluates_While (b:=body) (R:=r) (o':=o) Hc).
  split.
  - intros [[|n] [E N]].
    + simpl in E. rewrite Hv in E. inversion E. congruence.
    + rewrite (while_loop_S _ _ _ _ _ _ Hv) in E.
      destruct (bind_ends E N) as [rb [ob [Eb Nb]]].
      exists (S (S (S n))). split; [|exact N].
      rewrite evaluate_Sequence_cons.
      assert (n <= S (S n))%nat as L by lia.
      pose proof (evaluate_fuel_mono L _ _ _ Eb Nb) as Eb'.
      destruct rb as [bv bt s2|e| |].
      * rewrite (bind_returned Eb'), evaluate_Sequence_one.
        rewrite (bind_returned Eb) in E. exact E.
      * rewrite (bind_raised Eb'). rewrite (bind_raised Eb) in E. exact E.
      * rewrite (bind_not_returned Eb') by discriminate.
        rewrite (bind_not_returned Eb) in E by discriminate. exact E.
      * congruence.
  - intros H. apply evaluates_inv in H. destruct H as [m [E N]].
    rewrite evaluate_Sequence_cons in E.
    destruct (bind_ends E N) as [rb [ob [Eb Nb]]].
    destruct rb as [bv bt s2|e| |].
    + rewrite (bind_returned Eb) in E.
      assert (evaluates (While cond body) s2 ob r o) as HW.
      { apply evaluates_Sequence_one. exists m. split; assumption. }
      destruct (evaluates_from HW) as [k F].
      exists (S (Nat.max k m)). split; [|exact N].
      rewrite (while_loop_S _ _ _ _ _ _ Hv).
      assert (m <= Nat.max k m)%nat as L by lia.
      rewrite (bind_returned (evaluate_fuel_mono L _ _ _ Eb Nb)).
      apply F. lia.
    + exists (S m). split; [|exact N].
      rewrite (while_loop_S _ _ _ _ _ _ Hv).
      rewrite (bind_raised Eb). rewrite (bind_raised Eb) in E. exact E.
    + exists (S m). split; [|exact N].
      rewrite (while_loop_S _ _ _ _ _ _ Hv).
      rewrite (bind_not_returned Eb) by discriminate.
      rewrite (bind_not_returned Eb) in E by discriminate. exact E.
    + congruence.
Qed.

Lemma while_unrolls_witness :
  let i0 := Frame "i" (PyInt 0, Integer) EmptyState in
  let i1 := Frame "i" (PyInt 1, Integer) i0 in
  let cond := Lt (Variable' "i") (IntLiteral 1) in
  let body := Assign "i" (Add (Variable' "i") (IntLiteral 1)) in
  evaluates (While cond body) i0 [] (Returned (PyBool false) Boolean i1) [].
Proof.
  intros i0 i1 cond body.
  apply (proj2 (while_unrolls cond body i0 [] (PyBool true) i0 []
                  ltac:(by_running 2%nat) eq_refl _ _)).
  by_running 5%nat.
Defined.

(** X11 -- a [While] whose condition can only return true values never
    returns: it runs forever or ends in an exception.  [While] on the literal
    [true] is the plain case. *)
Theorem loop_without_false_check_never_returns (cond body : Expr) :
  (forall s0 o0 v t s1 o1,
     evaluates cond s0 o0 (Returned v t s1) o1 -> truthy v = true) ->
  forall s out v t s' o,
    ~ evaluates (While cond body) s out (Returned v t s') o.
Proof.
  intros Hc s out v t s' o H.
  apply evaluates_inv in H. destruct H as [n [E _]].
  cbn [evaluate] in E.
  destruct (bind_returned_inv E) as [cv [ct [s1 [o1 [Ec El]]]]].
  destruct ct; try discriminate El.
  destruct (while_loop_returns _ _ _ _ _ _ _ _ _ _ _ El)
    as [Hv [[-> _]|[_ [s0 [o0 Hlater]]]]].
  - rewrite (Hc _ _ _ _ _ _ (evaluates_intro Ec ltac:(discriminate))) in Hv.
    discriminate Hv.
  - rewrite (Hc _ _ _ _ _ _ Hlater) in Hv. discriminate Hv.
Qed.

Lemma loop_without_false_check_never_returns_witness :
  (forall s out v t s' o,
     ~ evaluates (While (BooleanLiteral true) (Print (IntLiteral 1)))
                 s out (Returned v t s') o) /\
  evaluate 5 (While (BooleanLiteral true) (Print (IntLiteral 1)))
           EmptyState []
  = (OutOfFuel, [PrintedValue (PyInt 1); PrintedValue (PyInt 1)]).
Proof.
  split; [|reflexivity].
  apply loop_without_false_check_never_returns.
  intros s0 o0 v t s1 o1 H. apply evaluates_inv in H.
  destruct H as [n [E _]]. cbn in E. inversion E. reflexivity.
Defined.

(** ** Where an error can come from *)

Lemma raises_only_ret (P : Error -> Prop) (v : Value) (t : Ty) (s : State) :
  raises_only P (ret v t s).
Proof. intros out e o E. discriminate E. Qed.

Lemma raises_only_raise (P : Error -> Prop) (e : Error) :
  P e -> raises_only P (raise e).
Proof. intros H out e' o E. inversion E; subst. exact H. Qed.

Lemma raises_only_out_of_fuel (P : Error -> Prop) :
  raises_only P out_of_fuel.
Proof. intros out e o E. discriminate E. Qed.

Lemma raises_only_print (P : Error -> Prop) (p : Printed) (k : Eval) :
  raises_only P k -> raises_only P (print p k).
Proof. intros H out. apply H. Qed.

Lemma raises_only_host (P : Error -> Prop) (o : option Value)
    (k : Value -> Eval) :
  (forall v, raises_only P (k v)) -> raises_only P (host o k).
Proof.
  intros H. destruct o as [v|]; simpl; [apply H|].
  intros out e o E. discriminate E.
Qed.

Lemma raises_only_bind (P : Error -> Prop) (m : Eval)
    (k : Value -> Ty -> State -> Eval) :
  raises_only P m -> (forall v t s, raises_only P (k v t s)) ->
  raises_only P (bind m k).
Proof.
  intros Hm Hk out e o. unfold bind.
  destruct (m out) as [[v t s| e1 | | ] o1] eqn:E1; intros E;
    try discriminate E.
  - exact (Hk _ _ _ _ _ _ E).
  - inversion E; subst. exact (Hm _ _ _ E1).
Qed.

Lemma raises_only_binary (P : Error -> Prop) (l : Eval) (r : State -> Eval)
    (op : Value -> Ty -> Value -> State -> Eval) :
  P InterpTypeError ->
  raises_only P l -> (forall s, raises_only P (r s)) ->
  (forall lv t rv s, raises_only P (op lv t rv s)) ->
  raises_only P (binary l r op).
Proof.
  intros HT Hl Hr Hop. unfold binary.
  apply raises_only_bind; [exact Hl | intros lv lt s1].
  apply raises_only_bind; [apply Hr | intros rv rt s2].
  destruct (negb (Ty_eqb lt rt)); [apply raises_only_raise; exact HT|].
  apply Hop.
Qed.

Lemma raises_only_weaken (P Q : Error -> Prop) (m : Eval) :
  (forall e, P e -> Q e) -> raises_only P m -> raises_only Q m.
Proof. intros H Hm out e o E. exact (H _ (Hm _ _ _ E)). Qed.

Lemma can_raise_here (err : Error) (e : Expr) :
  raises_at err e = true -> can_raise err e = true.
Proof. intros H. destruct e; cbn [can_raise]; rewrite H; reflexivity. Qed.

Lemma can_raise_Sequence (err : Error) (exprs : list Expr) :
  can_raise err (Sequence exprs) = existsb (can_raise err) exprs /\
  can_raise err (Program exprs) = existsb (can_raise err) exprs.
Proof. destruct err; split; reflexivity. Qed.

Lemma can_raise_rest (err : Error) (first : Expr) (rest : list Expr) :
  can_raise err (Sequence rest) = true ->
  can_raise err (Sequence (first :: rest)) = true /\
  can_raise err (Program (first :: rest)) = true.
Proof.
  rewrite !(proj1 (can_raise_Sequence err _)),
          !(proj2 (can_raise_Sequence err _)).
  intros H. simpl. rewrite H, orb_true_r. split; reflexivity.
Qed.

Lemma can_raise_first (err : Error) (first : Expr) (rest : list Expr) :
  can_raise err first = true ->
  can_raise err (Sequence (first :: rest)) = true /\
  can_raise err (Program (first :: rest)) = true.
Proof.
  rewrite !(proj1 (can_raise_Sequence err _)),
          !(proj2 (can_raise_Sequence err _)).
  intros H. simpl. rewrite H. split; reflexivity.
Qed.

(** A sub-expression that can raise makes its node able to. *)
Ltac can_raise_sub :=
  let err := fresh "err" in
  let H := fresh "H" in
  intros err H; cbn [can_raise]; rewrite H;
  rewrite ?orb_true_r; reflexivity.

Ltac raises_only_step IHe IHw :=
  first
    [ apply raises_only_ret
    | apply raises_only_out_of_fuel
    | apply raises_only_raise; apply can_raise_here; reflexivity
    | apply IHw
    | eapply raises_only_weaken; [ | apply IHe ]; can_raise_sub
    | eapply raises_only_weaken; [ | apply IHw ]; can_raise_sub
    | apply raises_only_binary;
      [ apply can_raise_here; reflexivity | | intro
      | intros ? ? ? ?; unfold comparison ]
    | apply raises_only_bind; [ | intros ? ? ? ]
    | apply raises_only_print
    | apply raises_only_host; intro
    | match goal with
      | |- raises_only _ (match ?x with _ => _ end) => destruct x
      | |- raises_only _ (if ?x then _ else _) => destruct x
      | |- raises_only _ (let _ := _ in _) => cbv zeta
      end ].

Lemma evaluate_raises (n : nat) :
  (forall e s,
      raises_only (fun err => can_raise err e = true) (evaluate n e s)) /\
  (forall c b r ct s,
      raises_only (fun err => can_raise err (While c b) = true)
                  (while_loop n c b r ct s)).
Proof.
  induction n as [|n [IHe IHw]].
  - split.
    + intros. apply raises_only_out_of_fuel.
    + intros c b r ct s. simpl. destruct (truthy r).
      * apply raises_only_out_of_fuel.
      * apply raises_only_ret.
  - split.
    + intros e s. destruct e; cbn [evaluate];
        try (repeat raises_only_step IHe IHw; fail).
      * (* Sequence *)
        destruct exprs as [|first rest];
          [eapply raises_only_weaken; [|apply IHe];
           intros err H; destruct err; discriminate H|].
        apply raises_only_bind.
        -- eapply raises_only_weaken; [|apply IHe].
           intros err H. exact (proj1 (can_raise_first err first rest H)).
        -- intros v t s1. destruct rest; [apply raises_only_ret|].
           eapply raises_only_weaken; [|apply IHe].
           intros err H. exact (proj1 (can_raise_rest err first _ H)).
      * (* Program *)
        destruct exprs as [|first rest];
          [eapply raises_only_weaken; [|apply IHe];
           intros err H; destruct err; discriminate H|].
        apply raises_only_bind.
        -- eapply raises_only_weaken; [|apply IHe].
           intros err H. exact (proj2 (can_raise_first err first rest H)).
        -- intros v t s1. destruct rest; [apply raises_only_ret|].
           eapply raises_only_weaken; [|apply IHe].
           intros err H. exact (proj2 (can_raise_rest err first _ H)).
    + intros c b r ct s. cbn [while_loop].
      repeat raises_only_step IHe IHw.
Qed.

(** X12 -- an exception comes from a node that has the [raise]: an evaluation
    raises the arithmetic-class error only if the expression contains a
    [Divide], the syntax-class error only if it contains a [Variable] read,
    and the type-class error only if it contains a node other than literals,
    the no-op, [Variable], [Print], [Sequence] and [Program]. *)
Theorem errors_come_from_their_nodes (e : Expr) (s : State) (out : Stdout)
    (err : Error) (o : Stdout) :
  evaluates e s out (Raised err) o -> can_raise err e = true.
Proof.
  intros [n [E _]]. exact (proj1 (evaluate_raises n) e s out err o E).
Qed.

Lemma errors_come_from_their_nodes_witness :
  can_raise InterpMathError
    (Sequence [Print (IntLiteral 1);
               If (BooleanLiteral true)
                  (Divide (IntLiteral 1) (IntLiteral 0)) Ren]) = true /\
  can_raise InterpMathError
    (Sequence [Print (IntLiteral 1);
               If (BooleanLiteral true)
                  (Multiply (IntLiteral 1) (IntLiteral 0)) Ren]) = false.
Proof.
  split; [|reflexivity].
  refine (errors_come_from_their_nodes _ EmptyState [] InterpMathError
            [PrintedValue (PyInt 1)] _).
  by_running 5%nat.
Defined.

(** ** Comparisons *)

(** X13 -- [Ne] is the negation of [Eq]: on operands of one type whose values
    agree with it, both return a [Boolean] and the two results are opposite,
    for every type, [FloatingPoint] with its NaN and [Unit] included. *)
Theorem ne_negates_eq (left right : Expr) (env : State) (out : Stdout)
    (lv rv : Value) (t : Ty) (env1 env2 : State) (out1 out2 : Stdout) :
  evaluates left env out (Returned lv t env1) out1 ->
  evaluates right env1 out1 (Returned rv t env2) out2 ->
  has_type lv t = true -> has_type rv t = true ->
  exists b,
    evaluates (Eq left right) env out (Returned (PyBool b) Boolean env2) out2
    /\
    evaluates (Ne left right) env out
              (Returned (PyBool (negb b)) Boolean env2) out2.
Proof.
  intros Hl Hr Tl Tr.
  destruct (common_fuel Hl Hr) as [n [El Er]].
  pose proof (fun op => binary_returned (op:=op) El Er) as B.
  rewrite Ty_eqb_refl in B. simpl in B.
  destruct t, lv; try discriminate Tl; destruct rv; try discriminate Tr;
    eexists; split; exists (S n); cbn [evaluate]; rewrite B;
    (split; [reflexivity|discriminate]).
Qed.

Lemma ne_negates_eq_witness :
  exists b,
    evaluates (Eq (FloatingPointLiteral nan) (FloatingPointLiteral nan))
              EmptyState [] (Returned (PyBool b) Boolean EmptyState) [] /\
    evaluates (Ne (FloatingPointLiteral nan) (FloatingPointLiteral nan))
              EmptyState [] (Returned (PyBool (negb b)) Boolean EmptyState) [].
Proof.
  exact (ne_negates_eq (FloatingPointLiteral nan) (FloatingPointLiteral nan)
           EmptyState [] (PyFloat nan) (PyFloat nan) FloatingPoint
           EmptyState EmptyState [] []
           ltac:(by_running 1%nat) ltac:(by_running 1%nat) eq_refl eq_refl).
Defined.

(** X14 -- on two [Integer] operands the six comparisons follow the order of
    the integers: each returns the [Boolean] that says whether the relation
    holds between the left and the right value, so exactly one of [Lt], [Eq]
    and [Gt] returns true. *)
Theorem integer_comparisons_follow_order (left right : Expr) (env : State)
    (out : Stdout) (a b : Z) (env1 env2 : State) (out1 out2 : Stdout) :
  evaluates left env out (Returned (PyInt a) Integer env1) out1 ->
  evaluates right env1 out1 (Returned (PyInt b) Integer env2) out2 ->
  exists lt le gt ge eq ne : bool,
    evaluates (Lt left right) env out (Returned (PyBool lt) Boolean env2) out2
    /\ evaluates (Lte left right) env out
                 (Returned (PyBool le) Boolean env2) out2
    /\ evaluates (Gt left right) env out
                 (Returned (PyBool gt) Boolean env2) out2
    /\ evaluates (Gte left right) env out
                 (Returned (PyBool ge) Boolean env2) out2
    /\ evaluates (Eq left right) env out
                 (Returned (PyBool eq) Boolean env2) out2
    /\ evaluates (Ne left right) env out
                 (Returned (PyBool ne) Boolean env2) out2
    /\ (lt = true <-> a < b) /\ (le = true <-> a <= b)
    /\ (gt = true <-> a > b) /\ (ge = true <-> a >= b)
    /\ (eq = true <-> a = b) /\ (ne = true <-> a <> b).
Proof.
  intros Hl Hr.
  destruct (common_fuel Hl Hr) as [n [El Er]].
  pose proof (fun op => binary_returned (op:=op) El Er) as B.
  simpl in B.
  exists (a <? b), (a <=? b), (a >? b), (a >=? b), (a =? b), (negb (a =? b)).
  repeat match goal with
         | |- evaluates _ _ _ _ _ /\ _ =>
             split; [exists (S n); cbn [evaluate]; rewrite B;
                     split; [reflexivity|discriminate]|]
         end.
  split; [apply Z.ltb_lt|]. split; [apply Z.leb_le|].
  split; [rewrite Z.gtb_ltb, Z.ltb_lt; lia|].
  split; [rewrite Z.geb_leb, Z.leb_le; lia|].
  split; [apply Z.eqb_eq|].
  rewrite negb_true_iff. apply Z.eqb_neq.
Qed.

Lemma integer_comparisons_follow_order_witness :
  exists lt le gt ge eq ne : bool,
    evaluates (Lt (IntLiteral (-3)) (IntLiteral 2)) EmptyState []
              (Returned (PyBool lt) Boolean EmptyState) []
    /\ evaluates (Lte (IntLiteral (-3)) (IntLiteral 2)) EmptyState []
                 (Returned (PyBool le) Boolean EmptyState) []
    /\ evaluates (Gt (IntLiteral (-3)) (IntLiteral 2)) EmptyState []
                 (Returned (PyBool gt) Boolean EmptyState) []
    /\ evaluates (Gte (IntLiteral (-3)) (IntLiteral 2)) EmptyState []
                 (Returned (PyBool ge) Boolean EmptyState) []
    /\ evaluates (Eq (IntLiteral (-3)) (IntLiteral 2)) EmptyState []
                 (Returned (PyBool eq) Boolean EmptyState) []
    /\ evaluates (Ne (IntLiteral (-3)) (IntLiteral 2)) EmptyState []
                 (Returned (PyBool ne) Boolean EmptyState) []
    /\ (lt = true <-> -3 < 2) /\ (le = true <-> -3 <= 2)
    /\ (gt = true <-> -3 > 2) /\ (ge = true <-> -3 >= 2)
    /\ (eq = true <-> -3 = 2) /\ (ne = true <-> -3 <> 2).
Proof.
  exact (integer_comparisons_follow_order
           (IntLiteral (-3)) (IntLiteral 2) EmptyState [] (-3) 2
           EmptyState EmptyState [] []
           ltac:(by_running 1%nat) ltac:(by_running 1%nat)).
Defined.

(** X15 -- [Not] on an operand that returns a [Boolean] returns the opposite
    truth value with the operand's environment, and raises the type-class
    error on any other type; so negating twice gives back the truth value
    of the operand. *)
Theorem not_negates (e : Expr) (s : State) (out : Stdout) (v : Value)
    (t : Ty) (s1 : State) (out1 : Stdout) :
  evaluates e s out (Returned v t s1) out1 ->
  match t with
  | Boolean =>
      evaluates (Not e) s out
                (Returned (PyBool (negb (truthy v))) Boolean s1) out1 /\
      evaluates (Not (Not e)) s out
                (Returned (PyBool (truthy v)) Boolean s1) out1
  | _ =>
      evaluates (Not e) s out (Raised InterpTypeError) out1 /\
      evaluates (Not (Not e)) s out (Raised InterpTypeError) out1
  end.
Proof.
  intros [n [E _]].
  assert (forall k, evaluate (S k) (Not e) s
                    = bind (evaluate k e s)
                           (fun v t s1 =>
                              match t with
                              | Boolean => ret (py_not v) t s1
                              | _ => raise InterpTypeError
                              end)) as U1 by reflexivity.
  assert (forall k, evaluate (S k) (Not (Not e)) s
                    = bind (evaluate k (Not e) s)
                           (fun v t s1 =>
                              match t with
                              | Boolean => ret (py_not v) t s1
                              | _ => raise InterpTypeError
                              end)) as U2 by reflexivity.
  assert (evaluate (S n) (Not e) s out
          = match t with
            | Boolean => (Returned (py_not v) Boolean s1, out1)
            | _ => (Raised InterpTypeError, out1)
            end) as E1.
  { rewrite U1, (bind_returned E). destruct t; reflexivity. }
  destruct t;
    try (split; [exists (S n); split; [exact E1|discriminate]|];
         exists (S (S n)); split; [|discriminate];
         rewrite U2, (bind_raised E1); reflexivity).
  split; [exists (S n); split; [exact E1|discriminate]|].
  exists (S (S n)). split; [|discriminate].
  rewrite U2, (bind_returned E1). unfold ret, py_not. simpl.
  rewrite negb_involutive. reflexivity.
Qed.

Lemma not_negates_witness :
  evaluates (Not (Not (Lt (IntLiteral 1) (IntLiteral 2)))) EmptyState []
            (Returned (PyBool true) Boolean EmptyState) [] /\
  evaluates (Not (IntLiteral 0)) EmptyState []
            (Raised InterpTypeError) [].
Proof.
  split.
  - exact (proj2 (not_negates (Lt (IntLiteral 1) (IntLiteral 2)) EmptyState []
                    (PyBool true) Boolean EmptyState []
                    ltac:(by_running 2%nat))).
  - exact (proj1 (not_negates (IntLiteral 0) EmptyState []
                    (PyInt 0) Integer EmptyState []
                    ltac:(by_running 1%nat))).
Defined.

(** ** The object store *)




Lemma backward_lookup (h : Store) :
  backward h ->
  forall r, (r < length h)%nat ->
    exists s, represents h r s /\
              forall name k, (r < k)%nat ->
                get_value_obj k h r name = Some (get_value s name).
Proof.
  intros Hb r. induction r as [r IH] using lt_wf_ind. intros Hr.
  destruct (nth_error h r) as [[|name value next]|] eqn:E;
    [| |apply nth_error_None in E; lia].
  - exists EmptyState. split; [apply represents_empty; exact E|].
    intros x [|k] Hk; [lia|]. simpl. rewrite E. reflexivity.
  - pose proof (Hb _ _ _ _ E) as Hn.
    destruct (IH next Hn ltac:(lia)) as [s [Hs Hg]].
    exists (Frame name value s).
    split; [eapply represents_frame; [exact E|exact Hs]|].
    intros x [|k] Hk; [lia|]. simpl. rewrite E.
    destruct (name =? x)%string; [reflexivity|]. apply Hg. lia.
Qed.

(** X17 -- a store in which every [next_state] reference points to an older
    object stays so under [set_value], and in such a store every reference
    is the head of a chain without cycle: a lookup through reference [r]
    answers within [r + 1] steps, with what the chain holds. *)
Theorem store_has_no_cycle (h : Store) :
  backward h ->
  (forall self n v t,
     (self < length h)%nat ->
     backward (fst (set_value_obj h self n v t)) /\
     (snd (set_value_obj h self n v t)
      < length (fst (set_value_obj h self n v t)))%nat) /\
  (forall r, (r < length h)%nat ->
     exists s, represents h r s /\
               forall name,
                 get_value_obj (S r) h r name = Some (get_value s name)).
Proof.
  intros Hb. split.
  - intros self n v t Hs. simpl. split.
    + intros r name value next E.
      destruct (Nat.lt_ge_cases r (length h)) as [Hr|Hr].
      * rewrite nth_error_app1 in E by exact Hr. exact (Hb _ _ _ _ E).
      * rewrite nth_error_app2 in E by exact Hr.
        destruct (r - length h)%nat as [|k] eqn:Ek.
        -- simpl in E. inversion E; subst. lia.
        -- simpl in E. destruct k; discriminate E.
    + rewrite length_app. simpl. lia.
  - intros r Hr. destruct (backward_lookup h Hb r Hr) as [s [Hs Hg]].
    exists s. split; [exact Hs|]. intros name. apply Hg. lia.
Qed.

Lemma store_has_no_cycle_witness :
  let h := [EmptyStateObj; StateObj "x" (PyInt 1, Integer) 0%nat;
            StateObj "y" (PyNone, Unit) 1%nat] in
  exists s, represents h 2%nat s /\
            forall name,
              get_value_obj 3 h 2%nat name = Some (get_value s name).
Proof.
  intros h.
  refine (proj2 (store_has_no_cycle h _) 2%nat _); [|simpl; lia].
  intros r name value next E.
  destruct r as [|[|[|r]]]; simpl in E; inversion E; subst; try lia.
  destruct r; discriminate.
Defined.
